(** * Pidgeon: item pipelines and apartment scoring

    A shallow embedding of [pidgeon/items.py], [pidgeon/pipelines.py],
    [pidgeon/analysis/analyzer.py], the preferences of
    [pidgeon/analysis/cli.py] and the text handling of the two spiders, and
    the properties of the loading, validation, deduplication, enrichment,
    export, statistics, scoring and ranking steps.

    Conventions of the embedding:
    - a scraped item is a finite map from field names to Python values;
    - a Python [float] is read as a real number, and a missing value (NaN or
      [None], what [pd.isna] accepts) as [None]; rounding and infinities of
      binary64 are outside the model;
    - an exception raised by the code is an explicit result ([Raise],
      [Dropped]); the wall clock is a parameter. *)

From Stdlib Require Import Reals Lra Lia ZArith List Ascii Sorting.Sorted Sorting.Permutation.
From stdpp Require Import gmap strings pretty list fin_maps.

Local Open Scope Z_scope.

(** ** Python values, as the item loaders produce them *)

Module Py.

(** The scalars a scraped field can hold: [None], [bool], [int], [str]. *)
Inductive pyval : Type :=
  | PNone
  | PBool (b : bool)
  | PInt (z : Z)
  | PStr (s : string).

#[global] Instance pyval_eq_dec : EqDecision pyval.
Proof. solve_decision. Defined.

Definition pyval_enc (v : pyval) : unit + (bool + (Z + string)) :=
  match v with
  | PNone => inl tt
  | PBool b => inr (inl b)
  | PInt z => inr (inr (inl z))
  | PStr s => inr (inr (inr s))
  end.

Definition pyval_dec (x : unit + (bool + (Z + string))) : pyval :=
  match x with
  | inl _ => PNone
  | inr (inl b) => PBool b
  | inr (inr (inl z)) => PInt z
  | inr (inr (inr s)) => PStr s
  end.

#[global] Instance pyval_countable : Countable pyval.
Proof.
  apply (inj_countable' pyval_enc pyval_dec).
  intros []; reflexivity.
Defined.

(** [bool(v)], the truth value used by [if v:] and [not v]. *)
Definition truthy (v : pyval) : bool :=
  match v with
  | PNone => false
  | PBool b => b
  | PInt z => negb (z =? 0)
  | PStr s => negb (String.eqb s "")
  end.

(** The key under which a value is found in a [set] or [dict]: [True == 1]
    and [False == 0] hash alike, every other pair of distinct values of this
    type differs. *)
Definition hash_key (v : pyval) : pyval :=
  match v with
  | PBool b => PInt (Z.b2z b)
  | _ => v
  end.

(** *** Strings

    Strings are sequences of ASCII characters; the Unicode white space and
    digits that [str.strip], [str.lower] and [int] also know are outside the
    model. *)

Definition ascii_in (lo hi : N) (c : ascii) : bool :=
  ((lo <=? N_of_ascii c) && (N_of_ascii c <=? hi))%N.

(** [c.isspace()]: tab, the line breaks, the separators 0x1c-0x1f and the
    space. *)
Definition is_space (c : ascii) : bool :=
  ascii_in 9 13 c || ascii_in 28 32 c.

Definition is_digit (c : ascii) : bool := ascii_in 48 57 c.

Definition digit_value (c : ascii) : Z := Z.of_N (N_of_ascii c) - 48.

(** [s.replace(c, '')] for a single character [c]. *)
Fixpoint remove_char (c : ascii) (s : string) : string :=
  match s with
  | EmptyString => EmptyString
  | String c' s' =>
      if Ascii.eqb c' c then remove_char c s' else String c' (remove_char c s')
  end.

Fixpoint lstrip (s : string) : string :=
  match s with
  | EmptyString => EmptyString
  | String c s' => if is_space c then lstrip s' else s
  end.

Definition string_rev (s : string) : string :=
  String.string_of_list_ascii (rev (String.list_ascii_of_string s)).

Definition rstrip (s : string) : string := string_rev (lstrip (string_rev s)).

(** [s.strip()] *)
Definition strip (s : string) : string := rstrip (lstrip s).

Definition lower_char (c : ascii) : ascii :=
  if ascii_in 65 90 c then ascii_of_N (N_of_ascii c + 32) else c.

(** [s.lower()] *)
Fixpoint lower (s : string) : string :=
  match s with
  | EmptyString => EmptyString
  | String c s' => String (lower_char c) (lower s')
  end.

(** [str(v)] *)
Definition str (v : pyval) : string :=
  match v with
  | PNone => "None"
  | PBool true => "True"
  | PBool false => "False"
  | PInt z => pretty z
  | PStr s => s
  end.

(** The digits of an integer literal: at least one digit, and single
    underscores only between two digits. [after_digit] tells whether the
    character before was a digit. *)
Fixpoint parse_digits (acc : Z) (after_digit : bool) (s : string) : option Z :=
  match s with
  | EmptyString => if after_digit then Some acc else None
  | String c s' =>
      if is_digit c then parse_digits (10 * acc + digit_value c) true s'
      else if Ascii.eqb c "_" && after_digit then
        match s' with
        | EmptyString => None
        | String c' _ => if is_digit c' then parse_digits acc false s' else None
        end
      else None
  end.

(** The white space that [int] skips around a number in an ASCII string:
    tab, the line breaks and the space. The separators 0x1c-0x1f, which
    [str.strip] removes, are no white space for [int]: it fails on them. *)
Definition is_int_space (c : ascii) : bool :=
  ascii_in 9 13 c || Ascii.eqb c " ".

(** The string without its leading characters of the class [f]. *)
Fixpoint skip_leading (f : ascii -> bool) (s : string) : string :=
  match s with
  | EmptyString => EmptyString
  | String c s' => if f c then skip_leading f s' else s
  end.

(** The string without its trailing characters of the class [f]. *)
Fixpoint skip_trailing (f : ascii -> bool) (s : string) : string :=
  match s with
  | EmptyString => EmptyString
  | String c s' =>
      match skip_trailing f s' with
      | EmptyString => if f c then EmptyString else String c EmptyString
      | rest => String c rest
      end
  end.

(** [int(s)] for a string [s], base 10: surrounding white space (of the
    class [is_int_space]), an optional sign, digits. [None] is [ValueError].
    The limit that recent interpreters put on the number of digits in a
    conversion between [int] and [str] is not modelled. *)
Definition int_of_str (s : string) : option Z :=
  match skip_trailing is_int_space (skip_leading is_int_space s) with
  | String "-" body => Z.opp <$> parse_digits 0 false body
  | String "+" body => parse_digits 0 false body
  | body => parse_digits 0 false body
  end.

(** *** Items *)

(** [item.get(field)]: the value, or [None] when the field is not set. *)
Definition get (field : string) (item : gmap string pyval) : pyval :=
  default PNone (item !! field).

(** *** Notions used to state facts about strings *)

(** Every character of the string is in the class [f]. *)
Fixpoint all_chars (f : ascii -> bool) (s : string) : bool :=
  match s with
  | EmptyString => true
  | String c s' => f c && all_chars f s'
  end.

(** The number a string of digits stands for, with [acc] for the digits read
    so far. *)
Fixpoint digits_value (acc : Z) (s : string) : Z :=
  match s with
  | EmptyString => acc
  | String c s' => digits_value (10 * acc + digit_value c) s'
  end.

(** [lstrip] on the list of characters of a string. *)
Fixpoint lstrip_list (l : list ascii) : list ascii :=
  match l with
  | [] => []
  | c :: l' => if is_space c then lstrip_list l' else l
  end.

(** The string does not begin with white space. *)
Definition starts_clean (s : string) : Prop :=
  match s with
  | EmptyString => True
  | String c _ => is_space c = false
  end.

(** The string is empty or begins with a character that is no digit. *)
Definition no_digit_ahead (s : string) : Prop :=
  match s with
  | EmptyString => True
  | String c _ => is_digit c = false
  end.

End Py.

(** ** [pidgeon/items.py] *)

Module Items.
Import Py.

(** [parse_boolean] *)
Definition parse_boolean (value : pyval) : bool :=
  if truthy value then
    let value_str := strip (lower (str value)) in
    bool_decide (value_str ∈ ["yes"; "ja"; "true"; "1"; "finns"; "hiss"])
  else false.

(** [re.sub(pattern, '', s)] for a pattern that is one character class:
    the characters outside the class stay. *)
Fixpoint keep (f : ascii -> bool) (s : string) : string :=
  match s with
  | EmptyString => EmptyString
  | String c s' => if f c then String c (keep f s') else keep f s'
  end.

(** The characters that [[^\d\s,]] does not match. *)
Definition price_char (c : ascii) : bool :=
  is_digit c || is_space c || Ascii.eqb c ",".

(** [clean_price] *)
Definition clean_price (value : pyval) : pyval :=
  if truthy value then
    let cleaned := keep price_char (str value) in
    PStr (strip cleaned)
  else value.

(** [clean_text] *)
Definition clean_text (value : pyval) : pyval :=
  if truthy value then PStr (strip (str value)) else value.

(** The longest prefix of digits. *)
Fixpoint take_digits (s : string) : string :=
  match s with
  | EmptyString => EmptyString
  | String c s' => if is_digit c then String c (take_digits s') else EmptyString
  end.

(** [re.search(r'\d+', s)]: the first run of digits, as long as it goes;
    [None] when the string has no digit. *)
Fixpoint first_digit_run (s : string) : option string :=
  match s with
  | EmptyString => None
  | String c s' =>
      if is_digit c then Some (String c (take_digits s')) else first_digit_run s'
  end.

(** [parse_integer]; the result [None] is the [None] the function returns. *)
Definition parse_integer (value : pyval) : option Z :=
  if truthy value then
    match first_digit_run (str value) with
    | Some group => int_of_str group
    | None => None
    end
  else None.

(** The input processors of [ApartmentItemLoader] for one scraped value:
    [MapCompose(f, g)] hands the result of [f] to [g], unless it is [None],
    and a result [None] adds nothing to the field. ([parse_integer] of
    [None] is [None], so the composition covers both.) *)
Definition price_in (value : pyval) : option Z := parse_integer (clean_price value).

End Items.

(** ** [pidgeon/pipelines.py] *)

(** What [process_item] of a pipeline does with an item: it hands it on, it
    raises [DropItem], or another exception leaves it. The message of
    [DropItem] is kept as the kind of the rejection and the value it quotes. *)
Inductive reason : Type :=
  | MissingRequiredField (field : string)
  | InvalidPrice (price : Py.pyval)
  | InvalidFee (fee : Py.pyval)
  | DuplicateItem (url : Py.pyval).

Inductive error : Type := OverflowError.

Inductive outcome : Type :=
  | Accepted (item : gmap string Py.pyval)
  | Dropped (why : reason)
  | Raised (e : error).

#[global] Instance reason_eq_dec : EqDecision reason.
Proof. solve_decision. Defined.

Module ValidationPipeline.
Import Py.

Definition required_fields : list string := ["url"; "source"; "address"].

(** The loop over [required_fields]: the first field that is not set, or
    whose value is false, drops the item. *)
Fixpoint check_required (fields : list string) (item : gmap string pyval) : option reason :=
  match fields with
  | [] => None
  | field :: fields' =>
      if negb (truthy (get field item)) then Some (MissingRequiredField field)
      else check_required fields' item
  end.

(** [int(str(v).replace(' ', '').replace(',', ''))] *)
Definition parse_amount (v : pyval) : option Z :=
  int_of_str (remove_char "," (remove_char " " (str v))).

(** The price block: [DropItem] goes through the [except (ValueError,
    TypeError)] clause, a [ValueError] of [int] is caught by it and only
    logged. *)
Definition check_price (item : gmap string pyval) : option reason :=
  if truthy (get "price" item) then
    match parse_amount (get "price" item) with
    | Some price => if (price <=? 0)%Z then Some (InvalidPrice (get "price" item)) else None
    | None => None
    end
  else None.

(** The fee block. *)
Definition check_fee (item : gmap string pyval) : option reason :=
  if truthy (get "fee" item) then
    match parse_amount (get "fee" item) with
    | Some fee => if (fee <? 0)%Z then Some (InvalidFee (get "fee" item)) else None
    | None => None
    end
  else None.

(** [float(z)] of an integer [z] raises [OverflowError] when [z] does not
    round to a finite binary64 number: from half way between the largest
    one, [2^1024 - 2^971], and [2^1024] on. *)
Definition float_overflows (z : Z) : bool := (2 ^ 1024 - 2 ^ 970 <=? Z.abs z)%Z.

(** The rooms block: [float(item['rooms'])] and a range check. What it finds
    it writes as a warning to the log of the spider, which is not part of the
    model; its [except (ValueError, TypeError)] clause does not catch the
    [OverflowError] of [float]. *)
Definition check_rooms (item : gmap string pyval) : option error :=
  if truthy (get "rooms" item) then
    match get "rooms" item with
    | PInt z => if float_overflows z then Some OverflowError else None
    | _ => None
    end
  else None.

(** The blocks after the price block. The last one, on [year_built], only
    writes warnings: [int] raises nothing but the [ValueError] that is caught
    there. *)
Definition after_price (item : gmap string pyval) : outcome :=
  match check_fee item with
  | Some why => Dropped why
  | None =>
      match check_rooms item with
      | Some e => Raised e
      | None => Accepted item
      end
  end.

(** [ValidationPipeline.process_item] *)
Definition process_item (item : gmap string pyval) : outcome :=
  match check_required required_fields item with
  | Some why => Dropped why
  | None =>
      match check_price item with
      | Some why => Dropped why
      | None => after_price item
      end
  end.

End ValidationPipeline.

Module DuplicatesPipeline.
Import Py.

(** [DuplicatesPipeline.process_item]: the state [self.seen_urls] goes in and
    comes out. *)
Definition process_item (seen_urls : gset pyval) (item : gmap string pyval)
    : outcome * gset pyval :=
  let url := get "url" item in
  if decide (hash_key url ∈ seen_urls) then
    (Dropped (DuplicateItem url), seen_urls)
  else
    (Accepted item, seen_urls ∪ {[hash_key url]}).

(** The items of a run, in the order they arrive at one pipeline object. *)
Fixpoint run (seen_urls : gset pyval) (items : list (gmap string pyval)) : list outcome :=
  match items with
  | [] => []
  | item :: items' =>
      let '(out, seen_urls') := process_item seen_urls item in
      out :: run seen_urls' items'
  end.

(** [__init__]: a new pipeline object has seen nothing. *)
Definition run_fresh (items : list (gmap string pyval)) : list outcome := run ∅ items.

(** The identity of an item, as the set compares it. *)
Definition url_key (item : gmap string pyval) : pyval := hash_key (get "url" item).

Definition has_url (u : pyval) (item : gmap string pyval) : bool :=
  bool_decide (url_key item = u).

(** The outcomes that concern the identity [u]: the item was handed on, or it
    was dropped as a duplicate. *)
Definition accepted_with (u : pyval) (out : outcome) : bool :=
  match out with
  | Accepted item => has_url u item
  | _ => false
  end.

Definition duplicate_of (u : pyval) (out : outcome) : bool :=
  match out with
  | Dropped (DuplicateItem url) => bool_decide (hash_key url = u)
  | _ => false
  end.

Fixpoint count {A : Type} (f : A -> bool) (l : list A) : nat :=
  match l with
  | [] => 0
  | x :: l' => (if f x then 1 else 0) + count f l'
  end.

(** The items a run hands on to the next pipeline, in their order. *)
Fixpoint accepted (outs : list outcome) : list (gmap string pyval) :=
  match outs with
  | [] => []
  | Accepted item :: outs' => item :: accepted outs'
  | _ :: outs' => accepted outs'
  end.

(** [self.seen_urls] after the items of a run. *)
Fixpoint seen_after (seen_urls : gset pyval) (items : list (gmap string pyval))
    : gset pyval :=
  match items with
  | [] => seen_urls
  | item :: items' => seen_after (process_item seen_urls item).2 items'
  end.

(** The outcome of an item that the pipeline has seen before. *)
Definition dropped_as_duplicate (item : gmap string pyval) : outcome :=
  Dropped (DuplicateItem (get "url" item)).

End DuplicatesPipeline.

Module DataEnrichmentPipeline.
Import Py.

(** One turn of the loop over the boolean fields. *)
Definition standardize (bool_field : string) (item : gmap string pyval)
    : gmap string pyval :=
  if decide (get bool_field item ≠ PNone) then
    <[bool_field := PBool (truthy (get bool_field item))]> item
  else item.

(** [DataEnrichmentPipeline.process_item]; [now] is what
    [datetime.now().isoformat()] returns at the call. The block on
    [price_per_m2] is a [pass]. *)
Definition process_item (now : string) (item : gmap string pyval) : gmap string pyval :=
  let item := foldl (fun item bool_field => standardize bool_field item) item
                    ["has_elevator"; "has_balcony"] in
  if negb (truthy (get "scraped_at" item)) then
    <["scraped_at" := PStr now]> item
  else item.

(** A field that holds a strict boolean, or nothing. *)
Definition strict_boolean (field : string) (item : gmap string pyval) : Prop :=
  get field item = PNone \/ exists b, item !! field = Some (PBool b).

(** An item as the enricher leaves it: the two amenity fields are strict
    booleans and [scraped_at] holds a value that counts as true, as every
    time stamp does. *)
Definition enriched (item : gmap string pyval) : Prop :=
  strict_boolean "has_elevator" item /\ strict_boolean "has_balcony" item /\
  truthy (get "scraped_at" item) = true.

End DataEnrichmentPipeline.

Module CSVExportPipeline.
Import Py.

(** The columns of the file, [fieldnames] of [open_spider]. *)
Definition fieldnames : list string :=
  ["url"; "source"; "address"; "price"; "fee"; "price_per_m2";
   "rooms"; "year_built"; "housing_cooperative"; "has_elevator";
   "has_balcony"; "floor"; "total_floors"; "scraped_at"].

(** One turn of the loop of [process_item]: the text written for a value. *)
Definition cell (value : pyval) : string :=
  match value with
  | PNone => ""
  | PBool b => if b then "Yes" else "No"
  | _ => str value
  end.

(** [item_dict] at the end of the loop. *)
Definition item_dict (item : gmap string pyval) : gmap string string :=
  cell <$> item.

(** [DictWriter.writerow] with [extrasaction='ignore']: one cell for each
    name of [fieldnames], empty when the dictionary has no such key; the
    other keys are passed over. *)
Definition writerow (rowdict : gmap string string) : list string :=
  map (fun name => default "" (rowdict !! name)) fieldnames.

(** The row [process_item] writes for an item; the item itself is returned
    as it came. *)
Definition process_item (item : gmap string pyval) : list string :=
  writerow (item_dict item).

End CSVExportPipeline.

Module StatisticsPipeline.
Import Py.

(** [self.stats]; [price_min = None] is the [float('inf')] it starts
    with. *)
Record Stats : Type := {
  total_items : Z;
  items_by_source : gmap pyval Z;
  price_min : option Z;
  price_max : Z;
  price_total : Z;
  price_count : Z;
  rooms_distribution : gmap string Z
}.

(** [__init__] *)
Definition initial : Stats := {|
  total_items := 0;
  items_by_source := ∅;
  price_min := None;
  price_max := 0;
  price_total := 0;
  price_count := 0;
  rooms_distribution := ∅
|}.

(** [item.get('source', 'unknown')]: the default stands in only for a field
    that is not set. *)
Definition source_of (item : gmap string pyval) : pyval :=
  default (PStr "unknown") (item !! "source").

(** [d[key] = d.get(key, 0) + 1] *)
Definition count_up `{Countable K} (key : K) (d : gmap K Z) : gmap K Z :=
  <[key := default 0 (d !! key) + 1]> d.

(** [min(self.stats['price_stats']['min'], price)]: every integer is below
    infinity. *)
Definition min_price (current : option Z) (price : Z) : option Z :=
  match current with
  | None => Some price
  | Some m => Some (if price <? m then price else m)
  end.

(** [max(self.stats['price_stats']['max'], price)] *)
Definition max_price (current price : Z) : Z :=
  if current <? price then price else current.

(** The price an item adds to the statistics: the same conversion as in the
    validator; a [ValueError] is passed over. *)
Definition counted_price (item : gmap string pyval) : option Z :=
  if truthy (get "price" item) then ValidationPipeline.parse_amount (get "price" item)
  else None.

(** [StatisticsPipeline.process_item]: the state [self.stats] goes in and
    comes out; the item is returned as it came. *)
Definition process_item (stats : Stats) (item : gmap string pyval) : Stats :=
  let total := total_items stats + 1 in
  let by_source := count_up (hash_key (source_of item)) (items_by_source stats) in
  let rooms :=
    if truthy (get "rooms" item) then
      count_up (str (get "rooms" item)) (rooms_distribution stats)
    else rooms_distribution stats in
  match counted_price item with
  | Some price => {|
      total_items := total;
      items_by_source := by_source;
      price_min := min_price (price_min stats) price;
      price_max := max_price (price_max stats) price;
      price_total := price_total stats + price;
      price_count := price_count stats + 1;
      rooms_distribution := rooms
    |}
  | None => {|
      total_items := total;
      items_by_source := by_source;
      price_min := price_min stats;
      price_max := price_max stats;
      price_total := price_total stats;
      price_count := price_count stats;
      rooms_distribution := rooms
    |}
  end.

(** The statistics after the items of a run. *)
Definition run (stats : Stats) (items : list (gmap string pyval)) : Stats :=
  foldl process_item stats items.

(** The prices of a run that enter the statistics, in order. *)
Definition counted_prices (items : list (gmap string pyval)) : list Z :=
  omap counted_price items.

Definition sum_list (l : list Z) : Z := foldr Z.add 0 l.

(** How many items of a list have the source [k], and how many the room
    text [r]. *)
Definition from_source (k : pyval) (item : gmap string pyval) : bool :=
  bool_decide (hash_key (source_of item) = k).

Definition with_rooms (r : string) (item : gmap string pyval) : bool :=
  truthy (get "rooms" item) && bool_decide (str (get "rooms" item) = r).

(** What a tally holds for a key that was counted [n] times: no entry, or
    the number. *)
Definition tally (n : nat) : option Z :=
  if decide (n = 0%nat) then None else Some (Z.of_nat n).

End StatisticsPipeline.

(** Items of the kind the tests of the pipelines build. *)
Module Samples.
Import Py.

Definition listing (url address : string) : gmap string pyval :=
  {[ "url" := PStr url; "source" := PStr "hemnet"; "address" := PStr address ]}.

Definition first_listing : gmap string pyval :=
  listing "https://x/1" "Test Street 123".

(** The same url, another address. *)
Definition second_listing : gmap string pyval :=
  listing "https://x/1" "Test Street 456".

Definition other_listing : gmap string pyval :=
  listing "https://x/2" "Test Street 789".

(** Two items without a url. *)
Definition no_url_1 : gmap string pyval :=
  {[ "source" := PStr "hemnet"; "address" := PStr "Test Street 123" ]}.

Definition no_url_2 : gmap string pyval :=
  {[ "source" := PStr "booli"; "address" := PStr "Test Street 456" ]}.

Definition priced (price : pyval) : gmap string pyval :=
  <["price" := price]> first_listing.

(** An item that went through the enricher before. *)
Definition clean_listing : gmap string pyval :=
  <["has_elevator" := PBool true]>
    (<["has_balcony" := PBool false]>
      (<["scraped_at" := PStr "2023-12-01T12:00:00"]> first_listing)).

End Samples.

(** ** [pidgeon/analysis/analyzer.py] *)

Module Analyzer.

Local Open Scope R_scope.

#[global] Instance Rle_decision (x y : R) : Decision (x <= y) := Rle_dec x y.
#[global] Instance Rlt_decision (x y : R) : Decision (x < y) := Rlt_dec x y.
#[global] Instance Rge_decision (x y : R) : Decision (x >= y) := Rge_dec x y.
#[global] Instance Rgt_decision (x y : R) : Decision (x > y) := Rgt_dec x y.
#[global] Instance Req_decision : EqDecision R := Req_dec_T.

(** What a scoring function gives back: a value, or the exception it raised.
    The only exception the scoring code can raise is the division of a
    [float] by zero. *)
Inductive exn : Type := ZeroDivisionError.

Inductive result (A : Type) : Type :=
  | Ok (a : A)
  | Raise (e : exn).
Arguments Ok {A} a.
Arguments Raise {A} e.

#[global] Instance result_ret : MRet result := @Ok.
#[global] Instance result_bind : MBind result := fun A B k m =>
  match m with
  | Ok a => k a
  | Raise e => Raise e
  end.

(** [a / b] on Python numbers. *)
Definition py_div (a b : R) : result R :=
  if decide (b = 0) then Raise ZeroDivisionError else Ok (a / b).

(** The builtins [max(a, b)] and [min(a, b)]: the first argument is kept
    unless the second is strictly greater (smaller). *)
Definition py_max (a b : R) : R := if decide (b > a) then b else a.
Definition py_min (a b : R) : R := if decide (b < a) then b else a.

(** [@dataclass ScoringWeights] *)
Record ScoringWeights : Type := {
  price_weight : R;
  fee_weight : R;
  price_per_m2_weight : R;
  rooms_weight : R;
  year_built_weight : R;
  elevator_weight : R;
  balcony_weight : R;
  floor_weight : R
}.

Definition default_weights : ScoringWeights := {|
  price_weight := 0.3;
  fee_weight := 0.2;
  price_per_m2_weight := 0.25;
  rooms_weight := 0.1;
  year_built_weight := 0.1;
  elevator_weight := 0.03;
  balcony_weight := 0.02;
  floor_weight := 0.0
|}.

(** [@dataclass ScoringPreferences]: the fields annotated [int] are integers,
    the room band is [float], the floor band is [Optional[int]]. *)
Record ScoringPreferences : Type := {
  max_preferred_price : Z;
  min_acceptable_price : Z;
  max_preferred_fee : Z;
  min_acceptable_fee : Z;
  max_preferred_price_per_m2 : Z;
  min_acceptable_price_per_m2 : Z;
  min_preferred_rooms : R;
  max_preferred_rooms : R;
  min_preferred_year : Z;
  preferred_year_threshold : Z;
  preferred_min_floor : option Z;
  preferred_max_floor : option Z;
  avoid_ground_floor : bool
}.

Definition default_preferences : ScoringPreferences := {|
  max_preferred_price := 4000000;
  min_acceptable_price := 1000000;
  max_preferred_fee := 5000;
  min_acceptable_fee := 2000;
  max_preferred_price_per_m2 := 70000;
  min_acceptable_price_per_m2 := 30000;
  min_preferred_rooms := 2.0;
  max_preferred_rooms := 4.0;
  min_preferred_year := 1960;
  preferred_year_threshold := 1990;
  preferred_min_floor := Some 2%Z;
  preferred_max_floor := Some 6%Z;
  avoid_ground_floor := true
|}.

(** [ApartmentAnalyzer.score_price]; [None] is a price for which [pd.isna]
    holds. *)
Definition score_price (p : ScoringPreferences) (price : option R) : result R :=
  match price with
  | None => Ok 0.0
  | Some price =>
      if decide (price <= IZR (max_preferred_price p)) then
        q ← py_div (price - IZR (min_acceptable_price p))
                   (IZR (max_preferred_price p - min_acceptable_price p));
        let score := 1.0 - q in
        Ok (py_max 0.0 (py_min 1.0 score))
      else
        decay_factor ← py_div (price - IZR (max_preferred_price p))
                              (IZR (max_preferred_price p));
        Ok (py_max 0.0 (0.3 * exp (- decay_factor)))
  end.

(** [ApartmentAnalyzer.score_fee] *)
Definition score_fee (p : ScoringPreferences) (fee : option R) : result R :=
  match fee with
  | None => Ok 0.5
  | Some fee =>
      if decide (fee <= IZR (max_preferred_fee p)) then
        q ← py_div (fee - IZR (min_acceptable_fee p))
                   (IZR (max_preferred_fee p - min_acceptable_fee p));
        let score := 1.0 - q in
        Ok (py_max 0.0 (py_min 1.0 score))
      else
        decay_factor ← py_div (fee - IZR (max_preferred_fee p))
                              (IZR (max_preferred_fee p));
        Ok (py_max 0.0 (0.3 * exp (- decay_factor)))
  end.

(** [ApartmentAnalyzer.score_price_per_m2] *)
Definition score_price_per_m2 (p : ScoringPreferences) (price_per_m2 : option R) : result R :=
  match price_per_m2 with
  | None => Ok 0.5
  | Some price_per_m2 =>
      if decide (price_per_m2 <= IZR (max_preferred_price_per_m2 p)) then
        q ← py_div (price_per_m2 - IZR (min_acceptable_price_per_m2 p))
                   (IZR (max_preferred_price_per_m2 p - min_acceptable_price_per_m2 p));
        let score := 1.0 - q in
        Ok (py_max 0.0 (py_min 1.0 score))
      else
        decay_factor ← py_div (price_per_m2 - IZR (max_preferred_price_per_m2 p))
                              (IZR (max_preferred_price_per_m2 p));
        Ok (py_max 0.0 (0.2 * exp (- decay_factor)))
  end.

(** [ApartmentAnalyzer.score_rooms] *)
Definition score_rooms (p : ScoringPreferences) (rooms : option R) : result R :=
  match rooms with
  | None => Ok 0.5
  | Some rooms =>
      if decide (min_preferred_rooms p <= rooms <= max_preferred_rooms p) then
        Ok 1.0
      else if decide (rooms < min_preferred_rooms p) then
        q ← py_div rooms (min_preferred_rooms p);
        Ok (py_max 0.0 q)
      else
        let excess := rooms - max_preferred_rooms p in
        Ok (py_max 0.1 (1.0 - 0.1 * excess))
  end.

(** [ApartmentAnalyzer.score_year_built] *)
Definition score_year_built (p : ScoringPreferences) (year_built : option R) : result R :=
  match year_built with
  | None => Ok 0.5
  | Some year_built =>
      if decide (year_built >= IZR (preferred_year_threshold p)) then
        Ok 1.0
      else if decide (year_built >= IZR (min_preferred_year p)) then
        score ← py_div (year_built - IZR (min_preferred_year p))
                       (IZR (preferred_year_threshold p - min_preferred_year p));
        Ok (py_max 0.1 score)
      else
        Ok 0.1
  end.

(** The truth value of an [Optional[int]] in a condition: [None] and [0] are
    false. *)
Definition opt_truthy (o : option Z) : bool :=
  match o with
  | Some z => negb (z =? 0)%Z
  | None => false
  end.

(** The integer of an [Optional[int]] that counts as true. *)
Definition opt_int (o : option Z) : R := IZR (default 0%Z o).

(** [ApartmentAnalyzer.score_floor]; [total_floors] is not used by the
    source either. *)
Definition score_floor (p : ScoringPreferences) (floor total_floors : option R) : R :=
  match floor with
  | None => 0.5
  | Some floor =>
      if avoid_ground_floor p && bool_decide (floor <= 1) then 0.2
      else if opt_truthy (preferred_min_floor p) && opt_truthy (preferred_max_floor p) then
        if decide (opt_int (preferred_min_floor p) <= floor
                   <= opt_int (preferred_max_floor p)) then 1.0
        else if decide (floor < opt_int (preferred_min_floor p)) then 0.6
        else 0.7
      else 0.8
  end.

(** A row of the cleaned frame: [clean_data] leaves in every numeric column a
    number or a missing value, and in the two amenity columns a boolean. *)
Record Apartment : Type := {
  price : option R;
  fee : option R;
  price_per_m2 : option R;
  rooms : option R;
  year_built : option R;
  floor : option R;
  total_floors : option R;
  has_elevator : bool;
  has_balcony : bool
}.

(** [ApartmentAnalyzer.calculate_apartment_score] *)
Definition calculate_apartment_score
    (w : ScoringWeights) (p : ScoringPreferences) (apartment : Apartment) : result R :=
  let score := 0.0 in
  s ← score_price p (price apartment);
  let score := score + price_weight w * s in
  s ← score_fee p (fee apartment);
  let score := score + fee_weight w * s in
  s ← score_price_per_m2 p (price_per_m2 apartment);
  let score := score + price_per_m2_weight w * s in
  s ← score_rooms p (rooms apartment);
  let score := score + rooms_weight w * s in
  s ← score_year_built p (year_built apartment);
  let score := score + year_built_weight w * s in
  let score := score + floor_weight w
                       * score_floor p (floor apartment) (total_floors apartment) in
  let score := if has_elevator apartment then score + elevator_weight w else score in
  let score := if has_balcony apartment then score + balcony_weight w else score in
  Ok (py_min 1.0 score).

(** A row of the analysed frame: the cleaned row and the [score] column, and
    after the ranking the [rank] column. *)
Record Scored : Type := { row : Apartment; score : R }.
Record Ranked : Type := { scored : Scored; rank : Z }.

(** [df_clean.apply(self.calculate_apartment_score, axis=1)]: the rows are
    scored in order, and the first exception ends the run. *)
Fixpoint apply_scores (w : ScoringWeights) (p : ScoringPreferences)
    (df : list Apartment) : result (list Scored) :=
  match df with
  | [] => Ok []
  | a :: df' =>
      s ← calculate_apartment_score w p a;
      rest ← apply_scores w p df';
      Ok ({| row := a; score := s |} :: rest)
  end.

(** [sort_values('score', ascending=False)], read as an insertion sort: a row
    goes in front of the first row whose score is not greater than its own.
    What the ranking relies on is that the result holds the same rows with
    the scores in descending order. *)
Fixpoint insert_desc (x : Scored) (l : list Scored) : list Scored :=
  match l with
  | [] => [x]
  | y :: l' =>
      if decide (score y <= score x) then x :: y :: l'
      else y :: insert_desc x l'
  end.

Fixpoint sort_values_desc (l : list Scored) : list Scored :=
  match l with
  | [] => []
  | x :: l' => insert_desc x (sort_values_desc l')
  end.

(** [range(start, start + len(l))], paired with the rows. *)
Fixpoint add_rank (start : Z) (l : list Scored) : list Ranked :=
  match l with
  | [] => []
  | x :: l' => {| scored := x; rank := start |} :: add_rank (start + 1) l'
  end.

(** The ranking step of [analyze_apartments]: sort by score, highest first,
    renumber, and add the column [rank = range(1, len + 1)]. *)
Definition rank_scored (df : list Scored) : list Ranked :=
  let df_scored := sort_values_desc df in
  add_rank 1 df_scored.

(** [ApartmentAnalyzer.analyze_apartments], from the cleaned frame on. *)
Definition analyze_apartments
    (w : ScoringWeights) (p : ScoringPreferences) (df_clean : list Apartment)
    : result (list Ranked) :=
  df ← apply_scores w p df_clean;
  Ok (rank_scored df).

(** The order of the analysed frame: a row is followed by rows that score no
    higher. *)
Definition score_ge (x y : Scored) : Prop := score x >= score y.

(** Weights as the data model wants them: no negative coefficient. *)
Definition nonneg_weights (w : ScoringWeights) : Prop :=
  0 <= price_weight w /\ 0 <= fee_weight w /\ 0 <= price_per_m2_weight w /\
  0 <= rooms_weight w /\ 0 <= year_built_weight w /\ 0 <= elevator_weight w /\
  0 <= balcony_weight w /\ 0 <= floor_weight w.

(** Preferences whose three ceilings and whose lower room bound are
    positive. *)
Definition positive_ceilings (p : ScoringPreferences) : Prop :=
  (0 < max_preferred_price p)%Z /\ (0 < max_preferred_fee p)%Z /\
  (0 < max_preferred_price_per_m2 p)%Z /\ 0 < min_preferred_rooms p.

(** Preferences under which no scoring function divides by zero. *)
Definition nondegenerate (p : ScoringPreferences) : Prop :=
  (max_preferred_price p <> 0 /\ max_preferred_price p <> min_acceptable_price p)%Z /\
  (max_preferred_fee p <> 0 /\ max_preferred_fee p <> min_acceptable_fee p)%Z /\
  (max_preferred_price_per_m2 p <> 0 /\
   max_preferred_price_per_m2 p <> min_acceptable_price_per_m2 p)%Z /\
  min_preferred_rooms p <> 0.

(** Preferences with other ceilings and another lower room bound, as the
    command line options [--max-price], [--max-fee] and [--min-rooms] set
    them. *)
Definition with_ceilings (max_price max_fee max_price_per_m2 : Z) (min_rooms : R)
    (p : ScoringPreferences) : ScoringPreferences := {|
  max_preferred_price := max_price;
  min_acceptable_price := min_acceptable_price p;
  max_preferred_fee := max_fee;
  min_acceptable_fee := min_acceptable_fee p;
  max_preferred_price_per_m2 := max_price_per_m2;
  min_acceptable_price_per_m2 := min_acceptable_price_per_m2 p;
  min_preferred_rooms := min_rooms;
  max_preferred_rooms := max_preferred_rooms p;
  min_preferred_year := min_preferred_year p;
  preferred_year_threshold := preferred_year_threshold p;
  preferred_min_floor := preferred_min_floor p;
  preferred_max_floor := preferred_max_floor p;
  avoid_ground_floor := avoid_ground_floor p
|}.

Definition with_max_price (max_price : Z) (p : ScoringPreferences) : ScoringPreferences :=
  with_ceilings max_price (max_preferred_fee p) (max_preferred_price_per_m2 p)
                (min_preferred_rooms p) p.

Definition with_max_fee (max_fee : Z) (p : ScoringPreferences) : ScoringPreferences :=
  with_ceilings (max_preferred_price p) max_fee (max_preferred_price_per_m2 p)
                (min_preferred_rooms p) p.

Definition with_max_price_per_m2 (max_m2 : Z) (p : ScoringPreferences) : ScoringPreferences :=
  with_ceilings (max_preferred_price p) (max_preferred_fee p) max_m2
                (min_preferred_rooms p) p.

Definition with_min_rooms (min_rooms : R) (p : ScoringPreferences) : ScoringPreferences :=
  with_ceilings (max_preferred_price p) (max_preferred_fee p)
                (max_preferred_price_per_m2 p) min_rooms p.

(** The preferences with the floor band taken out. *)
Definition without_floor_band (p : ScoringPreferences) : ScoringPreferences := {|
  max_preferred_price := max_preferred_price p;
  min_acceptable_price := min_acceptable_price p;
  max_preferred_fee := max_preferred_fee p;
  min_acceptable_fee := min_acceptable_fee p;
  max_preferred_price_per_m2 := max_preferred_price_per_m2 p;
  min_acceptable_price_per_m2 := min_acceptable_price_per_m2 p;
  min_preferred_rooms := min_preferred_rooms p;
  max_preferred_rooms := max_preferred_rooms p;
  min_preferred_year := min_preferred_year p;
  preferred_year_threshold := preferred_year_threshold p;
  preferred_min_floor := None;
  preferred_max_floor := None;
  avoid_ground_floor := avoid_ground_floor p
|}.

(** The default preferences with another lower bound of the floor band. *)
Definition with_min_floor (lo : option Z) (p : ScoringPreferences) : ScoringPreferences := {|
  max_preferred_price := max_preferred_price p;
  min_acceptable_price := min_acceptable_price p;
  max_preferred_fee := max_preferred_fee p;
  min_acceptable_fee := min_acceptable_fee p;
  max_preferred_price_per_m2 := max_preferred_price_per_m2 p;
  min_acceptable_price_per_m2 := min_acceptable_price_per_m2 p;
  min_preferred_rooms := min_preferred_rooms p;
  max_preferred_rooms := max_preferred_rooms p;
  min_preferred_year := min_preferred_year p;
  preferred_year_threshold := preferred_year_threshold p;
  preferred_min_floor := lo;
  preferred_max_floor := preferred_max_floor p;
  avoid_ground_floor := avoid_ground_floor p
|}.

(** A listing with a price and nothing else. *)
Definition only_price (v : R) : Apartment := {|
  price := Some v; fee := None; price_per_m2 := None; rooms := None;
  year_built := None; floor := None; total_floors := None;
  has_elevator := false; has_balcony := false
|}.

End Analyzer.

(** ** [analyzer.py]: reading and writing the frame *)

Module Frame.
Import Py.

(** The dictionary that [clean_data] maps over the columns [has_elevator]
    and [has_balcony]; a [dict] finds [True] under the key [1] and [False]
    under the key [0]. *)
Definition bool_map (value : pyval) : option bool :=
  match hash_key value with
  | PStr s =>
      if bool_decide (s = "Yes" \/ s = "yes") then Some true
      else if bool_decide (s = "No" \/ s = "no") then Some false
      else None
  | PInt z =>
      if (z =? 1)%Z then Some true else if (z =? 0)%Z then Some false else None
  | _ => None
  end.

(** [.map({...}).fillna(False)] on one cell of the column; the cell [None]
    is a missing value of the frame. *)
Definition clean_bool (cell : option pyval) : bool :=
  match cell with
  | Some value => default false (bool_map value)
  | None => false
  end.

(** The columns that [export_results] puts in front. *)
Definition cols : list string :=
  ["rank"; "score"; "address"; "price"; "fee"; "price_per_m2"; "rooms"; "year_built"].

(** The order of the columns in the file [export_results] writes, for a
    frame with the columns [columns]; [None] is the [KeyError] of
    [df[cols + remaining_cols]] when the frame lacks one of [cols]. *)
Definition export_columns (columns : list string) : option (list string) :=
  let remaining_cols := filter (fun col => col ∉ cols) columns in
  if decide (Forall (fun col => col ∈ columns) cols) then Some (cols ++ remaining_cols)
  else None.

End Frame.

(** ** [pidgeon/analysis/cli.py] *)

Module Cli.
Import Analyzer.

Local Open Scope R_scope.

(** The options of [analyze] that bear on the scoring; [None] is an option
    that was not given. *)
Record Args : Type := {
  max_price : option Z;
  max_fee : option Z;
  min_rooms : option R;
  max_rooms : option R
}.

(** The truth value of an optional [float]: [None] and [0.0] are false. *)
Definition float_truthy (o : option R) : bool :=
  match o with
  | Some r => negb (bool_decide (r = 0))
  | None => false
  end.

(** The preferences [analyze_command] builds: the defaults, and every option
    that counts as true in place of its default. *)
Definition preferences (args : Args) : ScoringPreferences :=
  let p := default_preferences in
  {|
    max_preferred_price :=
      if opt_truthy (max_price args) then default 0%Z (max_price args)
      else max_preferred_price p;
    min_acceptable_price := min_acceptable_price p;
    max_preferred_fee :=
      if opt_truthy (max_fee args) then default 0%Z (max_fee args)
      else max_preferred_fee p;
    min_acceptable_fee := min_acceptable_fee p;
    max_preferred_price_per_m2 := max_preferred_price_per_m2 p;
    min_acceptable_price_per_m2 := min_acceptable_price_per_m2 p;
    min_preferred_rooms :=
      if float_truthy (min_rooms args) then default 0 (min_rooms args)
      else min_preferred_rooms p;
    max_preferred_rooms :=
      if float_truthy (max_rooms args) then default 0 (max_rooms args)
      else max_preferred_rooms p;
    min_preferred_year := min_preferred_year p;
    preferred_year_threshold := preferred_year_threshold p;
    preferred_min_floor := preferred_min_floor p;
    preferred_max_floor := preferred_max_floor p;
    avoid_ground_floor := avoid_ground_floor p
  |}.

(** No option given. *)
Definition no_args : Args :=
  {| max_price := None; max_fee := None; min_rooms := None; max_rooms := None |}.

End Cli.

(** ** [pidgeon/spiders/hemnet.py], [pidgeon/spiders/booli.py] *)

Module Spiders.
Import Py Items.

(** [s.rstrip(c)] for one character [c]. *)
Fixpoint rstrip_char (c : ascii) (s : string) : string :=
  match s with
  | EmptyString => EmptyString
  | String c' s' =>
      match rstrip_char c s' with
      | EmptyString => if Ascii.eqb c' c then EmptyString else String c' EmptyString
      | rest => String c' rest
      end
  end.

(** [s.split(sep)] for one character [sep]; the list is never empty. *)
Fixpoint split (sep : ascii) (s : string) : list string :=
  match s with
  | EmptyString => [EmptyString]
  | String c s' =>
      if Ascii.eqb c sep then EmptyString :: split sep s'
      else match split sep s' with
           | part :: parts => String c part :: parts
           | [] => [String c EmptyString]
           end
  end.

(** [s.isdigit()] *)
Definition isdigit (s : string) : bool :=
  negb (String.eqb s "") && all_chars is_digit s.

(** [_extract_hemnet_id] and [_extract_booli_id], which have one body: the
    last of the parts between hyphens that is a number; [None] when there is
    none. *)
Definition extract_id (url : string) : option string :=
  let parts := split "-" (rstrip_char "/" url) in
  find isdigit (rev parts).

(** [s.split()]: the runs of characters that are no white space. *)
Fixpoint split_ws (s : string) : list string :=
  match s with
  | EmptyString => []
  | String c s' =>
      if is_space c then split_ws s'
      else match s' with
           | EmptyString => [String c EmptyString]
           | String c' _ =>
               if is_space c' then String c EmptyString :: split_ws s'
               else match split_ws s' with
                    | word :: words => String c word :: words
                    | [] => [String c EmptyString]
                    end
           end
  end.

(** [s.replace(c, by)] for one character [c]. *)
Fixpoint replace_char (c : ascii) (by_ : string) (s : string) : string :=
  match s with
  | EmptyString => EmptyString
  | String c' s' =>
      if Ascii.eqb c' c then by_ +:+ replace_char c by_ s'
      else String c' (replace_char c by_ s')
  end.

(** What the parts of the floor text add to the item: the loader sends the
    first part through [floor_in] and the third through [total_floors_in],
    both [MapCompose(parse_integer)], and a result [None] sets no field. *)
Definition floor_fields (floor_parts : list string) : option Z * option Z :=
  (floor_parts !! 0%nat ≫= (fun part => parse_integer (PStr part)),
   floor_parts !! 2%nat ≫= (fun part => parse_integer (PStr part))).

(** The floor and the total floors that [HemnetSpider.parse_apartment] reads
    from the text of the first floor selector that has one. *)
Definition hemnet_floor (floor_info : string) : option Z * option Z :=
  if truthy (PStr floor_info) then floor_fields (split_ws (strip floor_info))
  else (None, None).

(** The same for [BooliSpider.parse_apartment], which reads "3/5" as
    "3 av 5". *)
Definition booli_floor (floor_info : string) : option Z * option Z :=
  if truthy (PStr floor_info) then
    floor_fields (split_ws (replace_char "/" " av " (strip floor_info)))
  else (None, None).

End Spiders.

(** ** Notions used to state facts about the scores *)

Module ScoreFacts.
Import Analyzer.

Local Open Scope R_scope.

(** The listing with other amenities. *)
Definition set_amenities (elevator balcony : bool) (a : Apartment) : Apartment := {|
  price := price a; fee := fee a; price_per_m2 := price_per_m2 a; rooms := rooms a;
  year_built := year_built a; floor := floor a; total_floors := total_floors a;
  has_elevator := elevator; has_balcony := balcony
|}.

(** The sum of the weights, as [__post_init__] adds them up. *)
Definition weights_total (w : ScoringWeights) : R :=
  price_weight w + fee_weight w + price_per_m2_weight w + rooms_weight w +
  year_built_weight w + elevator_weight w + balcony_weight w + floor_weight w.

(** A listing with a price and a year of construction. *)
Definition priced_and_dated (v y : R) : Apartment := {|
  price := Some v; fee := None; price_per_m2 := None; rooms := None;
  year_built := Some y; floor := None; total_floors := None;
  has_elevator := false; has_balcony := false
|}.

(** What a flag adds to the score. *)
Definition bonus (flag : bool) (weight : R) : R := if flag then weight else 0.

(** The sum that [calculate_apartment_score] builds before the cap, from the
    five sub-scores that can fail, the floor score and the two flags. *)
Definition weighted_sum (w : ScoringWeights) (p : ScoringPreferences) (a : Apartment)
    (s_price s_fee s_m2 s_rooms s_year : R) : R :=
  price_weight w * s_price + fee_weight w * s_fee + price_per_m2_weight w * s_m2 +
  rooms_weight w * s_rooms + year_built_weight w * s_year +
  floor_weight w * score_floor p (floor a) (total_floors a) +
  bonus (has_elevator a) (elevator_weight w) + bonus (has_balcony a) (balcony_weight w).

(** Reference points in their intended order: each lower reference point
    below its ceiling, and the ceilings positive. *)
Definition ordered_reference_points (p : ScoringPreferences) : Prop :=
  (min_acceptable_price p < max_preferred_price p /\ 0 < max_preferred_price p)%Z /\
  (min_acceptable_fee p < max_preferred_fee p /\ 0 < max_preferred_fee p)%Z /\
  (min_acceptable_price_per_m2 p < max_preferred_price_per_m2 p /\
   0 < max_preferred_price_per_m2 p)%Z.

End ScoreFacts.

(** * Properties *)

(** ** Scoring *)

Section Scoring.

Import Analyzer.
Local Open Scope R_scope.

Implicit Types (w : ScoringWeights) (p : ScoringPreferences) (a : Apartment).

Lemma py_div_Ok x y q : py_div x y = Ok q -> y <> 0 /\ q = x / y.
Proof.
  unfold py_div. case_decide; [discriminate|].
  intros [= <-]. split; [assumption | reflexivity].
Qed.

Lemma py_div_nonzero x y : y <> 0 -> py_div x y = Ok (x / y).
Proof. intros Hy. unfold py_div. case_decide; [contradiction | reflexivity]. Qed.

Lemma py_max_ge_l x y : x <= py_max x y.
Proof. unfold py_max. case_decide; lra. Qed.

Lemma py_max_le x y b : x <= b -> y <= b -> py_max x y <= b.
Proof. unfold py_max. case_decide; lra. Qed.

Lemma py_min_le_l x y : py_min x y <= x.
Proof. unfold py_min. case_decide; lra. Qed.

Lemma py_min_ge x y b : b <= x -> b <= y -> b <= py_min x y.
Proof. unfold py_min. case_decide; lra. Qed.

Lemma div_le_1 x d : 0 < d -> x <= d -> x / d <= 1.
Proof.
  intros Hd Hx. unfold Rdiv. apply Rmult_le_reg_r with d; [lra|].
  rewrite Rmult_assoc, Rinv_l by lra. lra.
Qed.

Lemma div_nonneg x d : 0 < d -> 0 <= x -> 0 <= x / d.
Proof.
  intros Hd Hx. pose proof (Rinv_0_lt_compat d Hd). unfold Rdiv. nra.
Qed.

(** The clamp [max(0.0, min(1.0, score))] of the three linear branches. *)
Lemma clamp_unit s : 0 <= py_max 0.0 (py_min 1.0 s) <= 1.
Proof.
  split.
  - etransitivity; [|apply py_max_ge_l]. lra.
  - apply py_max_le; [lra|]. etransitivity; [apply py_min_le_l|]. lra.
Qed.

(** Beyond a positive ceiling the decay branch stays below its factor. *)
Lemma decay_unit k d : 0 <= k <= 1 -> 0 <= d -> 0 <= py_max 0.0 (k * exp (- d)) <= 1.
Proof.
  intros Hk Hd. split.
  - etransitivity; [|apply py_max_ge_l]. lra.
  - apply py_max_le; [lra|].
    assert (He : exp (- d) <= 1).
    { destruct (Req_dec d 0) as [->|Hne].
      - rewrite Ropp_0, exp_0. lra.
      - rewrite <- exp_0. left. apply exp_increasing. lra. }
    pose proof (exp_pos (- d)). nra.
Qed.

(** The bodies of [score_price], [score_fee] and [score_price_per_m2] have one
    shape; the tactics below walk it: missing value, linear branch, decay
    branch. *)
Ltac lower_is_better_nonneg :=
  first
    [ intros [= <-]; lra
    | case_decide;
      (destruct (py_div _ _); simpl; [|discriminate]);
      intros [= <-];
      [ apply clamp_unit | etransitivity; [|apply py_max_ge_l]; lra ] ].

Ltac lower_is_better_unit Hmax :=
  first
    [ intros [= <-]; lra
    | case_decide;
      [ (destruct (py_div _ _); simpl; [|discriminate]);
        intros [= <-]; apply clamp_unit
      | let q := fresh "q" in
        let Hq := fresh "Hq" in
        destruct (py_div _ _) as [q|] eqn:Hq; simpl; [|discriminate];
        intros [= <-]; apply py_div_Ok in Hq as [_ ->];
        apply IZR_lt in Hmax;
        apply decay_unit; [lra | apply div_nonneg; lra] ] ].

(** No sub-score is negative, whatever the preferences. *)
Lemma score_price_nonneg p v s : score_price p v = Ok s -> 0 <= s.
Proof. destruct v as [v|]; simpl; lower_is_better_nonneg. Qed.

Lemma score_fee_nonneg p v s : score_fee p v = Ok s -> 0 <= s.
Proof. destruct v as [v|]; simpl; lower_is_better_nonneg. Qed.

Lemma score_price_per_m2_nonneg p v s : score_price_per_m2 p v = Ok s -> 0 <= s.
Proof. destruct v as [v|]; simpl; lower_is_better_nonneg. Qed.

Lemma score_rooms_nonneg p v s : score_rooms p v = Ok s -> 0 <= s.
Proof.
  destruct v as [v|]; simpl; [|intros [= <-]; lra].
  repeat case_decide.
  - intros [= <-]; lra.
  - destruct (py_div _ _); simpl; [|discriminate].
    intros [= <-]. etransitivity; [|apply py_max_ge_l]. lra.
  - intros [= <-]. etransitivity; [|apply py_max_ge_l]. lra.
Qed.

(** The year score needs no assumption: inside the linear branch the year
    lies between the two reference years, so they differ. *)
Lemma score_year_built_unit p v s : score_year_built p v = Ok s -> 0 <= s <= 1.
Proof.
  destruct v as [v|]; simpl; [|intros [= <-]; lra].
  repeat case_decide; try (intros [= <-]; lra).
  destruct (py_div _ _) as [q|] eqn:Hq; simpl; [|discriminate].
  intros [= <-]. apply py_div_Ok in Hq as [Hne ->].
  rewrite minus_IZR in *.
  assert (Hpos : 0 < IZR (preferred_year_threshold p) - IZR (min_preferred_year p)) by lra.
  split.
  - etransitivity; [|apply py_max_ge_l]. lra.
  - apply py_max_le; [lra|].
    apply div_le_1; lra.
Qed.

Lemma score_floor_values p f tf :
  score_floor p f tf = 0.5 \/ score_floor p f tf = 0.2 \/ score_floor p f tf = 1.0 \/
  score_floor p f tf = 0.6 \/ score_floor p f tf = 0.7 \/ score_floor p f tf = 0.8.
Proof.
  unfold score_floor.
  destruct f as [f|]; [|auto].
  destruct (avoid_ground_floor p && bool_decide (f <= 1)); [auto|].
  destruct (opt_truthy (preferred_min_floor p) && opt_truthy (preferred_max_floor p));
    [|auto 7].
  repeat case_decide; auto 7.
Qed.

Lemma score_floor_unit p f tf : 0 <= score_floor p f tf <= 1.
Proof. destruct (score_floor_values p f tf) as [H|[H|[H|[H|[H|H]]]]]; rewrite H; lra. Qed.

(** With a positive ceiling the three "lower is better" scores stay in the
    unit interval. *)
Lemma score_price_unit p v s :
  (0 < max_preferred_price p)%Z -> score_price p v = Ok s -> 0 <= s <= 1.
Proof. intros Hmax. destruct v as [v|]; simpl; lower_is_better_unit Hmax. Qed.

Lemma score_fee_unit p v s :
  (0 < max_preferred_fee p)%Z -> score_fee p v = Ok s -> 0 <= s <= 1.
Proof. intros Hmax. destruct v as [v|]; simpl; lower_is_better_unit Hmax. Qed.

Lemma score_price_per_m2_unit p v s :
  (0 < max_preferred_price_per_m2 p)%Z -> score_price_per_m2 p v = Ok s -> 0 <= s <= 1.
Proof. intros Hmax. destruct v as [v|]; simpl; lower_is_better_unit Hmax. Qed.

Lemma score_rooms_unit p v s :
  0 < min_preferred_rooms p -> score_rooms p v = Ok s -> 0 <= s <= 1.
Proof.
  intros Hmin Hs. split; [eapply score_rooms_nonneg; eassumption|].
  revert Hs. destruct v as [v|]; simpl; [|intros [= <-]; lra].
  repeat case_decide.
  - intros [= <-]; lra.
  - destruct (py_div _ _) as [q|] eqn:Hq; simpl; [|discriminate].
    intros [= <-]. apply py_div_Ok in Hq as [_ ->].
    apply py_max_le; [lra|]. apply div_le_1; lra.
  - intros [= <-]. apply py_max_le; lra.
Qed.

(** The final score: the weighted sum is not negative when no weight is, and
    the cap keeps it at most 1. *)
Lemma calculate_apartment_score_unit w p a s :
  nonneg_weights w -> calculate_apartment_score w p a = Ok s -> 0 <= s <= 1.
Proof.
  intros (Hp & Hf & Hm & Hr & Hy & He & Hb & Hfl).
  unfold calculate_apartment_score.
  destruct (score_price p (price a)) as [s1|] eqn:H1; simpl; [|discriminate].
  destruct (score_fee p (fee a)) as [s2|] eqn:H2; simpl; [|discriminate].
  destruct (score_price_per_m2 p (price_per_m2 a)) as [s3|] eqn:H3; simpl; [|discriminate].
  destruct (score_rooms p (rooms a)) as [s4|] eqn:H4; simpl; [|discriminate].
  destruct (score_year_built p (year_built a)) as [s5|] eqn:H5; simpl; [|discriminate].
  intros [= <-].
  apply score_price_nonneg in H1. apply score_fee_nonneg in H2.
  apply score_price_per_m2_nonneg in H3. apply score_rooms_nonneg in H4.
  apply score_year_built_unit in H5 as [H5 _].
  pose proof (score_floor_unit p (floor a) (total_floors a)) as [H6 _].
  split; [|etransitivity; [apply py_min_le_l|lra]].
  apply py_min_ge; [lra|].
  pose proof (Rmult_le_pos _ _ Hp H1). pose proof (Rmult_le_pos _ _ Hf H2).
  pose proof (Rmult_le_pos _ _ Hm H3). pose proof (Rmult_le_pos _ _ Hr H4).
  pose proof (Rmult_le_pos _ _ Hy H5). pose proof (Rmult_le_pos _ _ Hfl H6).
  destruct (has_elevator a), (has_balcony a); lra.
Qed.

(** C1 (as amended): when no weight is negative, the year score, the floor
    score and the final score of [calculate_apartment_score] lie in [0,1] for
    every record and all preferences; the price, fee, price-per-m2 and rooms
    scores lie in [0,1] when the three ceilings and the lower room bound of
    the preferences are positive. *)
Theorem scores_in_unit_interval w p a :
  nonneg_weights w ->
  (positive_ceilings p ->
     (forall s, score_price p (price a) = Ok s -> 0 <= s <= 1) /\
     (forall s, score_fee p (fee a) = Ok s -> 0 <= s <= 1) /\
     (forall s, score_price_per_m2 p (price_per_m2 a) = Ok s -> 0 <= s <= 1) /\
     (forall s, score_rooms p (rooms a) = Ok s -> 0 <= s <= 1)) /\
  (forall s, score_year_built p (year_built a) = Ok s -> 0 <= s <= 1) /\
  0 <= score_floor p (floor a) (total_floors a) <= 1 /\
  (forall s, calculate_apartment_score w p a = Ok s -> 0 <= s <= 1).
Proof.
  intros Hw. split; [|split; [|split]].
  - intros (Hprice & Hfee & Hm2 & Hrooms).
    split; [|split; [|split]]; intros s Hs.
    + eapply score_price_unit; eassumption.
    + eapply score_fee_unit; eassumption.
    + eapply score_price_per_m2_unit; eassumption.
    + eapply score_rooms_unit; eassumption.
  - intros s Hs. eapply score_year_built_unit; eassumption.
  - apply score_floor_unit.
  - intros s Hs. eapply calculate_apartment_score_unit; eassumption.
Qed.

Lemma default_weights_nonneg : nonneg_weights default_weights.
Proof. unfold nonneg_weights; simpl. repeat split; lra. Qed.

Lemma default_preferences_positive : positive_ceilings default_preferences.
Proof. unfold positive_ceilings; simpl. repeat split; try lia; lra. Qed.

(** The default configuration and a listing of 3,000,000 SEK. *)
Lemma scores_in_unit_interval_witness :
  nonneg_weights default_weights /\
  (forall s, score_price default_preferences (Some 3000000) = Ok s -> 0 <= s <= 1) /\
  (forall s, calculate_apartment_score default_weights default_preferences
               (only_price 3000000) = Ok s -> 0 <= s <= 1).
Proof.
  pose proof (scores_in_unit_interval default_weights default_preferences
                (only_price 3000000) default_weights_nonneg)
    as (Hsub & _ & _ & Hfinal).
  destruct (Hsub default_preferences_positive) as (Hprice & _).
  split; [apply default_weights_nonneg|].
  split; [exact Hprice | exact Hfinal].
Defined.

(** C1 (as stated) fails: with the price ceiling set to -1,000,000 a price of
    3,000,000 falls in the decay branch with a negative decay factor, and its
    sub-score is [0.3 * exp 4 > 1]. *)
Lemma score_price_above_one :
  ~ (forall w p a s, nonneg_weights w -> score_price p (price a) = Ok s -> 0 <= s <= 1).
Proof.
  intros H.
  specialize (H default_weights (with_max_price (-1000000) default_preferences)
                (only_price 3000000) (0.3 * exp 4) default_weights_nonneg).
  assert (Hbig : 1 < 0.3 * exp 4).
  { pose proof (exp_ineq1_le 4). lra. }
  enough (0 <= 0.3 * exp 4 <= 1) by lra.
  apply H. simpl.
  case_decide; [lra|].
  rewrite py_div_nonzero by lra. simpl.
  replace (- ((3000000 - -1000000) / -1000000)) with 4 by lra.
  unfold py_max. case_decide; [reflexivity | lra].
Qed.

(** Each of the four assumptions on the preferences is needed: a negative fee
    or price-per-m2 ceiling does to its score what a negative price ceiling
    does to the price score, and below a negative lower room bound the
    quotient [rooms / min_preferred_rooms] exceeds 1. *)
Lemma positive_ceilings_needed :
  (exists s, score_fee (with_max_fee (-5000) default_preferences) (Some 15000) = Ok s /\
             1 < s) /\
  (exists s, score_price_per_m2 (with_max_price_per_m2 (-70000) default_preferences)
               (Some 280000) = Ok s /\ 1 < s) /\
  (exists s, score_rooms (with_min_rooms (-1) default_preferences) (Some (-5)) = Ok s /\
             1 < s).
Proof.
  split; [|split]; simpl.
  - rewrite decide_False by lra. rewrite py_div_nonzero by lra. simpl.
    eexists. split; [reflexivity|].
    replace (- ((15000 - -5000) / -5000)) with 4 by lra.
    pose proof (exp_ineq1_le 4). unfold py_max. case_decide; lra.
  - rewrite decide_False by lra. rewrite py_div_nonzero by lra. simpl.
    eexists. split; [reflexivity|].
    replace (- ((280000 - -70000) / -70000)) with 5 by lra.
    pose proof (exp_ineq1_le 5). unfold py_max. case_decide; lra.
  - rewrite decide_False by lra. rewrite decide_True by lra.
    rewrite py_div_nonzero by lra. simpl.
    eexists. split; [reflexivity|].
    replace (-5 / -1) with 5 by lra. unfold py_max. case_decide; lra.
Qed.

(** *** The scoring functions return

    A scoring function raises only when a reference point makes a
    denominator zero; the year score never does. *)

Lemma IZR_sub_nonzero x y : (x <> y)%Z -> IZR (x - y) <> 0.
Proof. intros Hne H0. apply eq_IZR_R0 in H0. lia. Qed.

Lemma IZR_nonzero x : (x <> 0)%Z -> IZR x <> 0.
Proof. intros Hne H0. apply eq_IZR_R0 in H0. lia. Qed.

Lemma score_price_returns p v :
  (max_preferred_price p <> 0)%Z -> (max_preferred_price p <> min_acceptable_price p)%Z ->
  exists s, score_price p v = Ok s.
Proof.
  intros H0 Hd. destruct v as [v|]; simpl; [|eauto].
  case_decide; rewrite py_div_nonzero by auto using IZR_sub_nonzero, IZR_nonzero;
    simpl; eauto.
Qed.

Lemma score_fee_returns p v :
  (max_preferred_fee p <> 0)%Z -> (max_preferred_fee p <> min_acceptable_fee p)%Z ->
  exists s, score_fee p v = Ok s.
Proof.
  intros H0 Hd. destruct v as [v|]; simpl; [|eauto].
  case_decide; rewrite py_div_nonzero by auto using IZR_sub_nonzero, IZR_nonzero;
    simpl; eauto.
Qed.

Lemma score_price_per_m2_returns p v :
  (max_preferred_price_per_m2 p <> 0)%Z ->
  (max_preferred_price_per_m2 p <> min_acceptable_price_per_m2 p)%Z ->
  exists s, score_price_per_m2 p v = Ok s.
Proof.
  intros H0 Hd. destruct v as [v|]; simpl; [|eauto].
  case_decide; rewrite py_div_nonzero by auto using IZR_sub_nonzero, IZR_nonzero;
    simpl; eauto.
Qed.

Lemma score_rooms_returns p v :
  min_preferred_rooms p <> 0 -> exists s, score_rooms p v = Ok s.
Proof.
  intros H0. destruct v as [v|]; simpl; [|eauto].
  repeat case_decide; try rewrite py_div_nonzero by done; simpl; eauto.
Qed.

Lemma score_year_built_returns p v : exists s, score_year_built p v = Ok s.
Proof.
  destruct v as [v|]; simpl; [|eauto].
  repeat case_decide; eauto.
  rewrite py_div_nonzero; simpl; eauto.
  rewrite minus_IZR. lra.
Qed.

Lemma calculate_apartment_score_returns w p a :
  nondegenerate p -> exists s, calculate_apartment_score w p a = Ok s.
Proof.
  intros ((Hp0 & Hp) & (Hf0 & Hf) & (Hm0 & Hm) & Hr).
  unfold calculate_apartment_score.
  destruct (score_price_returns p (price a) Hp0 Hp) as [s1 ->].
  destruct (score_fee_returns p (fee a) Hf0 Hf) as [s2 ->].
  destruct (score_price_per_m2_returns p (price_per_m2 a) Hm0 Hm) as [s3 ->].
  destruct (score_rooms_returns p (rooms a) Hr) as [s4 ->].
  destruct (score_year_built_returns p (year_built a)) as [s5 ->].
  simpl. eauto.
Qed.

Lemma default_preferences_nondegenerate : nondegenerate default_preferences.
Proof. unfold nondegenerate; simpl. repeat split; try lia; lra. Qed.

(** *** The worked examples of the scoring functions *)

Example score_price_at_ceiling : score_price default_preferences (Some 4000000) = Ok 0.
Proof.
  simpl. rewrite decide_True by lra.
  rewrite minus_IZR, py_div_nonzero by lra. simpl.
  f_equal. unfold py_max, py_min. repeat case_decide; lra.
Qed.

Example score_price_below_floor : score_price default_preferences (Some 500000) = Ok 1.
Proof.
  simpl. rewrite decide_True by lra.
  rewrite minus_IZR, py_div_nonzero by lra. simpl.
  f_equal. unfold py_max, py_min. repeat case_decide; lra.
Qed.

Example score_rooms_five : score_rooms default_preferences (Some 5) = Ok 0.9.
Proof.
  simpl. rewrite decide_False by lra. rewrite decide_False by lra.
  f_equal. unfold py_max. case_decide; lra.
Qed.

(** *** Monotonicity of the "lower is better" scores *)

(** Inside the linear branch a lower value never scores lower. *)
Lemma clamp_antitone q1 q2 :
  q1 <= q2 -> py_max 0.0 (py_min 1.0 (1.0 - q2)) <= py_max 0.0 (py_min 1.0 (1.0 - q1)).
Proof. intros Hq. unfold py_max, py_min. repeat case_decide; lra. Qed.

Lemma div_le_compat x y d : 0 < d -> x <= y -> x / d <= y / d.
Proof.
  intros Hd Hxy. pose proof (Rinv_0_lt_compat d Hd). unfold Rdiv. nra.
Qed.

Lemma score_price_antitone_below_ceiling p v1 v2 :
  (min_acceptable_price p < max_preferred_price p)%Z ->
  v1 <= v2 -> v2 <= IZR (max_preferred_price p) ->
  exists s1 s2, score_price p (Some v1) = Ok s1 /\ score_price p (Some v2) = Ok s2 /\ s2 <= s1.
Proof.
  intros Hd H12 H2. apply IZR_lt in Hd. simpl.
  rewrite !decide_True by lra. rewrite minus_IZR, !py_div_nonzero by lra. simpl.
  do 2 eexists. repeat split. apply clamp_antitone, div_le_compat; lra.
Qed.

Lemma score_fee_antitone_below_ceiling p v1 v2 :
  (min_acceptable_fee p < max_preferred_fee p)%Z ->
  v1 <= v2 -> v2 <= IZR (max_preferred_fee p) ->
  exists s1 s2, score_fee p (Some v1) = Ok s1 /\ score_fee p (Some v2) = Ok s2 /\ s2 <= s1.
Proof.
  intros Hd H12 H2. apply IZR_lt in Hd. simpl.
  rewrite !decide_True by lra. rewrite minus_IZR, !py_div_nonzero by lra. simpl.
  do 2 eexists. repeat split. apply clamp_antitone, div_le_compat; lra.
Qed.

Lemma score_price_per_m2_antitone_below_ceiling p v1 v2 :
  (min_acceptable_price_per_m2 p < max_preferred_price_per_m2 p)%Z ->
  v1 <= v2 -> v2 <= IZR (max_preferred_price_per_m2 p) ->
  exists s1 s2, score_price_per_m2 p (Some v1) = Ok s1 /\
                score_price_per_m2 p (Some v2) = Ok s2 /\ s2 <= s1.
Proof.
  intros Hd H12 H2. apply IZR_lt in Hd. simpl.
  rewrite !decide_True by lra. rewrite minus_IZR, !py_div_nonzero by lra. simpl.
  do 2 eexists. repeat split. apply clamp_antitone, div_le_compat; lra.
Qed.

(** Beyond a positive ceiling, too, a lower value never scores lower. *)
Lemma decay_antitone k m v1 v2 :
  0 <= k -> 0 < m -> v1 <= v2 ->
  py_max 0.0 (k * exp (- ((v2 - m) / m))) <= py_max 0.0 (k * exp (- ((v1 - m) / m))).
Proof.
  intros Hk Hm H12.
  assert (Hd : (v1 - m) / m <= (v2 - m) / m) by (apply div_le_compat; lra).
  assert (He : exp (- ((v2 - m) / m)) <= exp (- ((v1 - m) / m))).
  { destruct Hd as [Hlt | Heq]; [|rewrite Heq; lra].
    left. apply exp_increasing. lra. }
  pose proof (exp_pos (- ((v2 - m) / m))).
  assert (k * exp (- ((v2 - m) / m)) <= k * exp (- ((v1 - m) / m))) by nra.
  unfold py_max. repeat case_decide; lra.
Qed.

Lemma score_price_antitone_above_ceiling p v1 v2 :
  (0 < max_preferred_price p)%Z ->
  IZR (max_preferred_price p) < v1 -> v1 <= v2 ->
  exists s1 s2, score_price p (Some v1) = Ok s1 /\ score_price p (Some v2) = Ok s2 /\ s2 <= s1.
Proof.
  intros Hm H1 H12. apply IZR_lt in Hm. simpl.
  rewrite !decide_False by lra. rewrite !py_div_nonzero by lra. simpl.
  do 2 eexists. repeat split. apply decay_antitone; lra.
Qed.

Lemma score_fee_antitone_above_ceiling p v1 v2 :
  (0 < max_preferred_fee p)%Z ->
  IZR (max_preferred_fee p) < v1 -> v1 <= v2 ->
  exists s1 s2, score_fee p (Some v1) = Ok s1 /\ score_fee p (Some v2) = Ok s2 /\ s2 <= s1.
Proof.
  intros Hm H1 H12. apply IZR_lt in Hm. simpl.
  rewrite !decide_False by lra. rewrite !py_div_nonzero by lra. simpl.
  do 2 eexists. repeat split. apply decay_antitone; lra.
Qed.

Lemma score_price_per_m2_antitone_above_ceiling p v1 v2 :
  (0 < max_preferred_price_per_m2 p)%Z ->
  IZR (max_preferred_price_per_m2 p) < v1 -> v1 <= v2 ->
  exists s1 s2, score_price_per_m2 p (Some v1) = Ok s1 /\
                score_price_per_m2 p (Some v2) = Ok s2 /\ s2 <= s1.
Proof.
  intros Hm H1 H12. apply IZR_lt in Hm. simpl.
  rewrite !decide_False by lra. rewrite !py_div_nonzero by lra. simpl.
  do 2 eexists. repeat split. apply decay_antitone; lra.
Qed.

(** The linear branch with the reference points the other way round, the
    lower one above the ceiling: every value up to the ceiling scores 0. *)
Lemma clamp_reversed v lo hi :
  hi < lo -> v <= hi -> py_max 0.0 (py_min 1.0 (1.0 - (v - lo) / (hi - lo))) = 0.0.
Proof.
  intros Hd Hv.
  assert (Hq : 1 <= (v - lo) / (hi - lo)).
  { replace ((v - lo) / (hi - lo)) with ((lo - v) / (lo - hi)).
    - apply Rmult_le_reg_r with (lo - hi); [lra|].
      unfold Rdiv. rewrite Rmult_assoc, Rinv_l by lra. lra.
    - unfold Rdiv. rewrite <- (Ropp_minus_distr v lo), <- (Ropp_minus_distr hi lo).
      rewrite Rinv_opp. lra. }
  unfold py_max, py_min. repeat case_decide; lra.
Qed.

Lemma linear_antitone lo hi v1 v2 q1 q2 :
  v1 <= v2 -> v2 <= IZR hi ->
  py_div (v1 - IZR lo) (IZR (hi - lo)) = Ok q1 ->
  py_div (v2 - IZR lo) (IZR (hi - lo)) = Ok q2 ->
  py_max 0.0 (py_min 1.0 (1.0 - q2)) <= py_max 0.0 (py_min 1.0 (1.0 - q1)).
Proof.
  intros H12 H2 [Hne ->]%py_div_Ok [_ ->]%py_div_Ok.
  rewrite minus_IZR in *.
  destruct (Rlt_dec (IZR lo) (IZR hi)) as [Hlt | Hge].
  - apply clamp_antitone, div_le_compat; lra.
  - rewrite !clamp_reversed by lra. lra.
Qed.

(** The shape shared by the statements below: on values up to the ceiling a
    "lower is better" score, where it returns, is antitone. *)
Ltac quotient_returned q Hq :=
  match goal with
  | |- context [py_div ?a ?b] =>
      destruct (py_div a b) as [q|] eqn:Hq; simpl; [|discriminate]; intros [= <-]
  end.

Ltac antitone_up_to_ceiling :=
  intros H12 H2 s1 s2; simpl; rewrite !decide_True by lra;
  let q1 := fresh "q1" in let q2 := fresh "q2" in
  let Hq1 := fresh "Hq1" in let Hq2 := fresh "Hq2" in
  quotient_returned q1 Hq1; quotient_returned q2 Hq2;
  exact (linear_antitone _ _ _ _ _ _ H12 H2 Hq1 Hq2).

Lemma score_price_antitone_up_to_ceiling p v1 v2 :
  v1 <= v2 -> v2 <= IZR (max_preferred_price p) ->
  forall s1 s2, score_price p (Some v1) = Ok s1 -> score_price p (Some v2) = Ok s2 ->
                s2 <= s1.
Proof. antitone_up_to_ceiling. Qed.

Lemma score_fee_antitone_up_to_ceiling p v1 v2 :
  v1 <= v2 -> v2 <= IZR (max_preferred_fee p) ->
  forall s1 s2, score_fee p (Some v1) = Ok s1 -> score_fee p (Some v2) = Ok s2 ->
                s2 <= s1.
Proof. antitone_up_to_ceiling. Qed.

Lemma score_price_per_m2_antitone_up_to_ceiling p v1 v2 :
  v1 <= v2 -> v2 <= IZR (max_preferred_price_per_m2 p) ->
  forall s1 s2, score_price_per_m2 p (Some v1) = Ok s1 ->
                score_price_per_m2 p (Some v2) = Ok s2 -> s2 <= s1.
Proof. antitone_up_to_ceiling. Qed.

(** C4: the price, fee and price-per-m2 scores are non-increasing on the
    values up to the preferred ceiling. For every pair [v1 <= v2] with [v2]
    (and so [v1]) at or below [max_preferred], and for all preferences, the
    scores the function returns satisfy [s2 <= s1]: the lower value never
    scores lower. The function returns on that region whenever the ceiling
    differs from the lower reference point. *)
Theorem scores_antitone_up_to_ceiling p v1 v2 :
  v1 <= v2 ->
  (v2 <= IZR (max_preferred_price p) ->
   (forall s1 s2, score_price p (Some v1) = Ok s1 -> score_price p (Some v2) = Ok s2 ->
                  s2 <= s1) /\
   (max_preferred_price p <> min_acceptable_price p ->
    exists s1 s2, score_price p (Some v1) = Ok s1 /\ score_price p (Some v2) = Ok s2)) /\
  (v2 <= IZR (max_preferred_fee p) ->
   (forall s1 s2, score_fee p (Some v1) = Ok s1 -> score_fee p (Some v2) = Ok s2 ->
                  s2 <= s1) /\
   (max_preferred_fee p <> min_acceptable_fee p ->
    exists s1 s2, score_fee p (Some v1) = Ok s1 /\ score_fee p (Some v2) = Ok s2)) /\
  (v2 <= IZR (max_preferred_price_per_m2 p) ->
   (forall s1 s2, score_price_per_m2 p (Some v1) = Ok s1 ->
                  score_price_per_m2 p (Some v2) = Ok s2 -> s2 <= s1) /\
   (max_preferred_price_per_m2 p <> min_acceptable_price_per_m2 p ->
    exists s1 s2, score_price_per_m2 p (Some v1) = Ok s1 /\
                  score_price_per_m2 p (Some v2) = Ok s2)).
Proof.
  intros H12. split; [|split]; intros H2; split.
  - by apply score_price_antitone_up_to_ceiling.
  - intros Hne. simpl. rewrite !decide_True by lra.
    rewrite !py_div_nonzero by (by apply IZR_sub_nonzero). simpl. eauto.
  - by apply score_fee_antitone_up_to_ceiling.
  - intros Hne. simpl. rewrite !decide_True by lra.
    rewrite !py_div_nonzero by (by apply IZR_sub_nonzero). simpl. eauto.
  - by apply score_price_per_m2_antitone_up_to_ceiling.
  - intros Hne. simpl. rewrite !decide_True by lra.
    rewrite !py_div_nonzero by (by apply IZR_sub_nonzero). simpl. eauto.
Qed.

(** The default preferences, 3,000,000 against 3,900,000 SEK: both scores
    are returned, and the lower price scores at least as high. *)
Lemma scores_antitone_up_to_ceiling_witness :
  3000000 <= 3900000 /\
  exists s1 s2, score_price default_preferences (Some 3000000) = Ok s1 /\
                score_price default_preferences (Some 3900000) = Ok s2 /\ s2 <= s1.
Proof.
  assert (H12 : 3000000 <= 3900000) by lra.
  assert (H2 : 3900000 <= IZR (max_preferred_price default_preferences)) by (simpl; lra).
  destruct (scores_antitone_up_to_ceiling default_preferences 3000000 3900000 H12)
    as [Hprice _].
  destruct (Hprice H2) as [Hle Hret].
  destruct Hret as (s1 & s2 & H1 & H2'); [simpl; lia|].
  split; [exact H12|]. exists s1, s2. split; [exact H1|]. split; [exact H2'|].
  exact (Hle s1 s2 H1 H2').
Defined.

(** Across the ceiling the scores are not monotone. Under the default
    preferences each linear branch has come down to about 0.03 just below the
    ceiling, and each decay branch starts again near its factor just above it:
    a price of 3,900,000 scores strictly lower than a price of 4,100,000, a
    fee of 4,900 lower than a fee of 5,100, and 69,000 per m2 lower than
    71,000 per m2. *)
Theorem scores_jump_at_ceiling :
  (exists s1 s2, score_price default_preferences (Some 3900000) = Ok s1 /\
                 score_price default_preferences (Some 4100000) = Ok s2 /\ s1 < s2) /\
  (exists s1 s2, score_fee default_preferences (Some 4900) = Ok s1 /\
                 score_fee default_preferences (Some 5100) = Ok s2 /\ s1 < s2) /\
  (exists s1 s2, score_price_per_m2 default_preferences (Some 69000) = Ok s1 /\
                 score_price_per_m2 default_preferences (Some 71000) = Ok s2 /\ s1 < s2).
Proof.
  repeat split; simpl.
  all: rewrite decide_True, decide_False by lra.
  all: rewrite !py_div_nonzero by (try rewrite minus_IZR; lra); simpl.
  all: do 2 eexists; repeat split.
  all: match goal with
       | |- context [exp ?x] => pose proof (exp_ineq1_le x)
       end.
  all: unfold py_max, py_min; rewrite ?minus_IZR; repeat case_decide; lra.
Qed.

(** *** The floor score *)

(** C9: with [avoid_ground_floor] set, every floor value [f <= 1] scores
    exactly 0.2, whatever the floor band. *)
Theorem score_floor_ground p f tf :
  avoid_ground_floor p = true -> f <= 1 -> score_floor p (Some f) tf = 0.2.
Proof.
  intros Havoid Hf. unfold score_floor.
  rewrite Havoid, bool_decide_eq_true_2 by assumption. reflexivity.
Qed.

(** [score_floor(1)] under the default preferences. *)
Lemma score_floor_ground_witness :
  avoid_ground_floor default_preferences = true /\ 1 <= 1 /\
  score_floor default_preferences (Some 1) None = 0.2.
Proof.
  split; [reflexivity|]. split; [lra|].
  apply (score_floor_ground default_preferences 1 None); [reflexivity | lra].
Defined.

(** C10: when one bound of the floor band is 0, [score_floor] is the function
    it is with no band at all, and every floor value above the ground floor
    cut-off (any value, when the ground floor is not avoided) scores 0.8. *)
Theorem score_floor_zero_bound p f tf :
  preferred_min_floor p = Some 0%Z \/ preferred_max_floor p = Some 0%Z ->
  score_floor p f tf = score_floor (without_floor_band p) f tf /\
  forall v, f = Some v -> avoid_ground_floor p = false \/ 1 < v ->
            score_floor p f tf = 0.8.
Proof.
  intros Hzero.
  assert (Hband : forall v, score_floor p (Some v) tf =
                  if avoid_ground_floor p && bool_decide (v <= 1) then 0.2 else 0.8).
  { intros v. unfold score_floor.
    destruct (avoid_ground_floor p && bool_decide (v <= 1)); [reflexivity|].
    destruct Hzero as [-> | ->]; simpl; [reflexivity|].
    rewrite andb_false_r. reflexivity. }
  split.
  - destruct f as [v|]; [|reflexivity]. rewrite Hband.
    unfold score_floor; simpl.
    destruct (avoid_ground_floor p && bool_decide (v <= 1)); reflexivity.
  - intros v -> Hv. rewrite Hband.
    destruct Hv as [-> | Hv]; [reflexivity|].
    rewrite bool_decide_eq_false_2 by lra. rewrite andb_false_r. reflexivity.
Qed.

(** The default preferences with [preferred_min_floor = 0], third floor. *)
Lemma score_floor_zero_bound_witness :
  preferred_min_floor (with_min_floor (Some 0%Z) default_preferences) = Some 0%Z /\
  score_floor (with_min_floor (Some 0%Z) default_preferences) (Some 3) None = 0.8.
Proof.
  split; [reflexivity|].
  refine (proj2 (score_floor_zero_bound (with_min_floor (Some 0%Z) default_preferences)
                   (Some 3) None (or_introl eq_refl)) 3 eq_refl _).
  right. lra.
Defined.

End Scoring.

(** ** Ranking *)

Section Ranking.

Import Analyzer.
Local Open Scope R_scope.

Lemma insert_desc_perm x l : Permutation (insert_desc x l) (x :: l).
Proof.
  induction l as [|y l IH]; simpl; [reflexivity|].
  case_decide; [reflexivity|].
  rewrite IH. apply perm_swap.
Qed.

Lemma sort_values_desc_perm l : Permutation (sort_values_desc l) l.
Proof.
  induction l as [|x l IH]; simpl; [reflexivity|].
  rewrite insert_desc_perm. constructor. exact IH.
Qed.

Lemma insert_desc_hd z x l :
  score_ge z x -> HdRel score_ge z l -> HdRel score_ge z (insert_desc x l).
Proof.
  intros Hzx Hzl. destruct l as [|y l]; simpl; [constructor; assumption|].
  case_decide; constructor; [assumption|].
  inversion Hzl; assumption.
Qed.

Lemma insert_desc_sorted x l : Sorted score_ge l -> Sorted score_ge (insert_desc x l).
Proof.
  induction 1 as [|y l Hl IH Hhd]; simpl.
  - repeat constructor.
  - case_decide as Hyx.
    + constructor; [constructor; assumption|].
      constructor. unfold score_ge. lra.
    + constructor; [exact IH|].
      apply insert_desc_hd; [|exact Hhd]. unfold score_ge. lra.
Qed.

Lemma sort_values_desc_sorted l : Sorted score_ge (sort_values_desc l).
Proof.
  induction l as [|x l IH]; simpl; [constructor|].
  apply insert_desc_sorted, IH.
Qed.

Lemma add_rank_scored start l : map scored (add_rank start l) = l.
Proof.
  revert start. induction l as [|x l IH]; intros start; simpl; [reflexivity|].
  rewrite IH. reflexivity.
Qed.

Lemma add_rank_rank start l :
  map rank (add_rank start l) =
  map (fun i => (start + Z.of_nat i)%Z) (seq 0 (length l)).
Proof.
  revert start. induction l as [|x l IH]; intros start; simpl; [reflexivity|].
  rewrite Z.add_0_r. f_equal.
  rewrite IH, <- seq_shift, map_map.
  apply map_ext. intros i. lia.
Qed.

Lemma add_rank_lookup start l i r :
  add_rank start l !! i = Some r ->
  l !! i = Some (scored r) /\ rank r = (start + Z.of_nat i)%Z.
Proof.
  revert start i. induction l as [|x l IH]; intros start i; simpl; [discriminate|].
  destruct i as [|i]; simpl.
  - intros [= <-]. simpl. split; [reflexivity | lia].
  - intros Hr. apply IH in Hr as [Hl Hrank]. split; [exact Hl | lia].
Qed.

Lemma sorted_consecutive l i x y :
  Sorted score_ge l -> l !! i = Some x -> l !! S i = Some y -> score x >= score y.
Proof.
  intros Hl. revert i. induction Hl as [|z l Hl IH Hhd]; intros i; [discriminate|].
  destruct i as [|i]; simpl.
  - intros [= ->]. destruct Hhd as [|y' l' Hxy]; simpl; [discriminate|].
    intros [= ->]. exact Hxy.
  - apply IH.
Qed.

(** C2: the ranking step keeps the rows of the scored frame, gives them the
    ranks 1, 2, ..., N in this order, and orders them so that the row at
    rank i scores at least as high as the row at rank i+1. *)
Theorem rank_scored_dense_and_ordered (df : list Scored) :
  Permutation (map scored (rank_scored df)) df /\
  map rank (rank_scored df) = map Z.of_nat (seq 1 (length df)) /\
  forall i r1 r2,
    rank_scored df !! i = Some r1 -> rank_scored df !! S i = Some r2 ->
    rank r1 = Z.of_nat (S i) /\ rank r2 = (rank r1 + 1)%Z /\
    score (scored r1) >= score (scored r2).
Proof.
  unfold rank_scored. split; [|split].
  - rewrite add_rank_scored. apply sort_values_desc_perm.
  - rewrite add_rank_rank, (Permutation_length (sort_values_desc_perm df)).
    rewrite <- seq_shift, map_map. apply map_ext. intros i. lia.
  - intros i r1 r2 Hr1 Hr2.
    apply add_rank_lookup in Hr1 as [Hl1 ->]. apply add_rank_lookup in Hr2 as [Hl2 ->].
    split; [lia|]. split; [lia|].
    eapply sorted_consecutive; [apply sort_values_desc_sorted | eassumption..].
Qed.

(** *** The whole of [analyze_apartments] *)

Lemma apply_scores_rows w p df l :
  apply_scores w p df = Ok l ->
  map row l = df /\
  Forall (fun x => calculate_apartment_score w p (row x) = Ok (score x)) l.
Proof.
  revert l. induction df as [|a df IH]; intros l; simpl.
  - intros [= <-]. split; [reflexivity | constructor].
  - destruct (calculate_apartment_score w p a) as [s|] eqn:Hs; simpl; [|discriminate].
    destruct (apply_scores w p df) as [rest|]; simpl; [|discriminate].
    intros [= <-]. destruct (IH rest eq_refl) as [Hrows Hall].
    simpl. rewrite Hrows. split; [reflexivity|].
    constructor; [exact Hs | exact Hall].
Qed.

Lemma apply_scores_returns w p df :
  nondegenerate p -> exists l, apply_scores w p df = Ok l.
Proof.
  intros Hp. induction df as [|a df [rest IH]]; simpl; [eauto|].
  destruct (calculate_apartment_score_returns w p a Hp) as [s ->].
  rewrite IH. simpl. eauto.
Qed.

(** With preferences that keep the denominators away from zero the analysis
    returns a frame; the frame holds the rows that went in, each with the
    score [calculate_apartment_score] gives it, in [0,1] when no weight is
    negative. *)
Lemma analyze_apartments_returns w p df :
  nondegenerate p -> exists out, analyze_apartments w p df = Ok out.
Proof.
  intros Hp. unfold analyze_apartments.
  destruct (apply_scores_returns w p df Hp) as [l ->]. simpl. eauto.
Qed.

Lemma analyze_apartments_rows w p df out :
  nonneg_weights w -> analyze_apartments w p df = Ok out ->
  Permutation (map (fun r => row (scored r)) out) df /\
  Forall (fun r => calculate_apartment_score w p (row (scored r)) = Ok (score (scored r)) /\
                   0 <= score (scored r) <= 1) out.
Proof.
  intros Hw. unfold analyze_apartments.
  destruct (apply_scores w p df) as [l|] eqn:Hl; simpl; [|discriminate].
  intros [= <-]. apply apply_scores_rows in Hl as [Hrows Hall].
  unfold rank_scored.
  assert (Hperm : Permutation (map scored (add_rank 1 (sort_values_desc l))) l).
  { rewrite add_rank_scored. apply sort_values_desc_perm. }
  split.
  - rewrite <- Hrows, <- (map_map scored row). apply Permutation_map, Hperm.
  - apply Forall_forall. intros r Hr.
    assert (Hin : scored r ∈ l).
    { rewrite <- Hperm. apply (list_elem_of_fmap_2 scored), Hr. }
    pose proof (proj1 (Forall_forall _ _) Hall _ Hin) as Hscore.
    simpl in Hscore. split; [exact Hscore|].
    eapply calculate_apartment_score_unit; eassumption.
Qed.

(** The frame [analyze_apartments] returns carries the ranks 1, ..., N of
    its N input rows, in this order, over scores that do not increase. *)
Lemma analyze_apartments_ranked w p df out :
  analyze_apartments w p df = Ok out ->
  map rank out = map Z.of_nat (seq 1 (length df)) /\
  Sorted score_ge (map scored out).
Proof.
  unfold analyze_apartments.
  destruct (apply_scores w p df) as [l|] eqn:Hl; simpl; [|discriminate].
  intros [= <-]. apply apply_scores_rows in Hl as [Hrows _].
  unfold rank_scored. split.
  - rewrite add_rank_rank, (Permutation_length (sort_values_desc_perm l)).
    rewrite <- Hrows, length_map, <- seq_shift, map_map.
    apply map_ext. intros i. lia.
  - rewrite add_rank_scored. apply sort_values_desc_sorted.
Qed.

End Ranking.

(** ** Deduplication *)

Section Deduplication.

Import Py DuplicatesPipeline.
Local Open Scope nat_scope.

Implicit Types (item : gmap string pyval) (items : list (gmap string pyval)).
Implicit Types (seen : gset pyval) (u : pyval).

Lemma process_item_seen seen item :
  url_key item ∈ seen ->
  process_item seen item = (Dropped (DuplicateItem (get "url" item)), seen).
Proof. intros Hin. unfold process_item. rewrite decide_True; done. Qed.

Lemma process_item_new seen item :
  url_key item ∉ seen ->
  process_item seen item = (Accepted item, seen ∪ {[url_key item]}).
Proof. intros Hin. unfold process_item. rewrite decide_False; done. Qed.

(** [seen_urls] only grows, and holds the identity of every item that went
    through. *)
Lemma process_item_mono seen item u : u ∈ seen -> u ∈ (process_item seen item).2.
Proof. intros Hu. unfold process_item. case_decide; simpl; set_solver. Qed.

Lemma process_item_records seen item : url_key item ∈ (process_item seen item).2.
Proof. unfold process_item, url_key. case_decide; simpl; set_solver. Qed.

Lemma process_item_other seen item u :
  u ∈ (process_item seen item).2 -> u ∈ seen \/ u = url_key item.
Proof. unfold process_item, url_key. case_decide; simpl; set_solver. Qed.

(** How many items of identity [u] a run hands on and how many it drops, from
    any state of [seen_urls]. *)
Lemma run_counts seen items u :
  count (accepted_with u) (run seen items) =
    (if decide (u ∈ seen) then 0 else Nat.min 1 (count (has_url u) items)) /\
  count (duplicate_of u) (run seen items) =
    (if decide (u ∈ seen) then count (has_url u) items
     else count (has_url u) items - 1).
Proof.
  revert seen. induction items as [|item items IH]; intros seen.
  - cbn. case_decide; done.
  - cbn [run count].
    assert (Hhas : has_url u item = bool_decide (url_key item = u)) by done.
    destruct (decide (url_key item ∈ seen)) as [Hin|Hin].
    + rewrite process_item_seen by done. cbn [count accepted_with duplicate_of].
      destruct (IH seen) as [-> ->]. fold (url_key item). rewrite Hhas.
      case_bool_decide as Hu; [subst u|];
        repeat case_decide; try (exfalso; set_solver); split; lia.
    + rewrite process_item_new by done. cbn [count accepted_with duplicate_of].
      destruct (IH (seen ∪ {[url_key item]})) as [-> ->]. rewrite Hhas.
      case_bool_decide as Hu; [subst u|];
        repeat case_decide; try (exfalso; set_solver); split; lia.
Qed.

(** The outcome at one position of a run. *)
Lemma run_lookup_first seen items i item :
  items !! i = Some item ->
  url_key item ∉ seen ->
  (forall j item', j < i -> items !! j = Some item' -> url_key item' ≠ url_key item) ->
  run seen items !! i = Some (Accepted item).
Proof.
  revert seen i. induction items as [|x items IH]; intros seen i; [done|].
  destruct i as [|i]; simpl.
  - intros [= ->] Hin _. rewrite process_item_new by done. done.
  - intros Hi Hin Hbefore.
    pose proof (process_item_other seen x (url_key item)) as Hother.
    destruct (process_item seen x) as [out seen']. simpl in *.
    apply IH; [done| |].
    + intros Hseen'. apply Hother in Hseen' as [Hseen | Heq]; [done|].
      apply (Hbefore 0 x); [lia | done | done].
    + intros j item' Hj. apply (Hbefore (S j)). lia.
Qed.

Lemma run_lookup_repeat seen items i item :
  items !! i = Some item ->
  url_key item ∈ seen \/
    (exists j item', j < i /\ items !! j = Some item' /\ url_key item' = url_key item) ->
  run seen items !! i = Some (Dropped (DuplicateItem (get "url" item))).
Proof.
  revert seen i. induction items as [|x items IH]; intros seen i; [done|].
  destruct i as [|i]; simpl.
  - intros [= ->] [Hin | (j & _ & Hj & _)]; [|lia].
    rewrite process_item_seen by done. done.
  - intros Hi Hearlier.
    pose proof (process_item_mono seen x (url_key item)) as Hmono.
    pose proof (process_item_records seen x) as Hrec.
    destruct (process_item seen x) as [out seen']. simpl in *.
    apply IH; [done|].
    destruct Hearlier as [Hin | (j & item' & Hj & Hlook & Hkey)]; [left; auto|].
    destruct j as [|j]; simpl in Hlook.
    + left. assert (x = item') as -> by congruence. rewrite <- Hkey. done.
    + right. exists j, item'. split; [lia | done].
Qed.

(** C3: of the [M >= 1] items of a run that share one url value, the first
    in arrival order is handed on and the other [M - 1] are dropped as
    duplicates; only the url value of an item enters the decision. *)
Theorem first_occurrence_wins items u M :
  M = count (has_url u) items -> 1 <= M ->
  count (accepted_with u) (run_fresh items) = 1 /\
  count (duplicate_of u) (run_fresh items) = M - 1 /\
  forall i item, items !! i = Some item -> url_key item = u ->
    ((forall j item', j < i -> items !! j = Some item' -> url_key item' ≠ u) ->
       run_fresh items !! i = Some (Accepted item)) /\
    ((exists j item', j < i /\ items !! j = Some item' /\ url_key item' = u) ->
       run_fresh items !! i = Some (Dropped (DuplicateItem (get "url" item)))).
Proof.
  intros -> HM. unfold run_fresh.
  destruct (run_counts ∅ items u) as [Hacc Hdup].
  rewrite decide_False in Hacc, Hdup by set_solver.
  split; [lia|]. split; [done|].
  intros i item Hi <-. split.
  - intros Hfirst. apply run_lookup_first; [done | set_solver | done].
  - intros Hrep. apply run_lookup_repeat; [done | right; done].
Qed.

(** Two listings with the url "https://x/1" and one with another url. *)
Lemma first_occurrence_wins_witness :
  1 <= count (has_url (PStr "https://x/1"))
         [Samples.first_listing; Samples.other_listing; Samples.second_listing] /\
  count (accepted_with (PStr "https://x/1"))
    (run_fresh [Samples.first_listing; Samples.other_listing; Samples.second_listing]) = 1 /\
  count (duplicate_of (PStr "https://x/1"))
    (run_fresh [Samples.first_listing; Samples.other_listing; Samples.second_listing]) = 1.
Proof.
  assert (HM : 1 <= count (has_url (PStr "https://x/1"))
            [Samples.first_listing; Samples.other_listing; Samples.second_listing]).
  { vm_compute. lia. }
  split; [exact HM|].
  destruct (first_occurrence_wins
              [Samples.first_listing; Samples.other_listing; Samples.second_listing]
              (PStr "https://x/1") _ eq_refl HM) as (Hacc & Hdup & _).
  split; [exact Hacc | exact Hdup].
Defined.

(** An item without a url has the identity [None], and [None] is put into
    [seen_urls] like any url. *)
Lemma run_without_url item1 item2 :
  get "url" item1 = PNone -> get "url" item2 = PNone ->
  run_fresh [item1; item2] = [Accepted item1; Dropped (DuplicateItem PNone)].
Proof.
  intros H1 H2. unfold run_fresh. cbn [run].
  rewrite process_item_new by (unfold url_key; rewrite H1; set_solver).
  rewrite process_item_seen by (unfold url_key; rewrite H1, H2; set_solver).
  rewrite H2. reflexivity.
Qed.

(** C8: of two items without a url, the second one is dropped as a duplicate
    of the first. *)
Theorem second_item_without_url_dropped :
  run_fresh [Samples.no_url_1; Samples.no_url_2] =
  [Accepted Samples.no_url_1; Dropped (DuplicateItem PNone)].
Proof. apply run_without_url; reflexivity. Qed.

End Deduplication.

(** ** Validation *)

Section Validation.

Import Py ValidationPipeline.
Local Open Scope Z_scope.

Implicit Types (item : gmap string pyval).

Lemma check_required_missing fields item field :
  check_required fields item = Some (MissingRequiredField field) ->
  field ∈ fields /\ truthy (get field item) = false.
Proof.
  induction fields as [|f fields IH]; simpl; [done|].
  destruct (truthy (get f item)) eqn:Hf; simpl.
  - intros H. apply IH in H as [Hin Hfalse]. split; [set_solver | done].
  - intros [= <-]. split; [set_solver | done].
Qed.

Lemma check_required_present item :
  truthy (get "url" item) = true -> truthy (get "source" item) = true ->
  truthy (get "address" item) = true ->
  check_required required_fields item = None.
Proof. intros Hu Hs Ha. unfold required_fields. simpl. rewrite Hu, Hs, Ha. done. Qed.

(** An item short of a required field is dropped, whatever its price. *)
Lemma process_item_required item field :
  field ∈ required_fields -> truthy (get field item) = false ->
  exists field', process_item item = Dropped (MissingRequiredField field').
Proof.
  unfold process_item, required_fields. intros Hin Hfalse.
  simpl. repeat (apply elem_of_cons in Hin as [-> | Hin]).
  - rewrite Hfalse. simpl. eauto.
  - destruct (truthy (get "url" item)); simpl; [|eauto].
    rewrite Hfalse. simpl. eauto.
  - destruct (truthy (get "url" item)); simpl; [|eauto].
    destruct (truthy (get "source" item)); simpl; [|eauto].
    rewrite Hfalse. simpl. eauto.
  - set_solver.
Qed.

Lemma check_price_nonpositive item n :
  truthy (get "price" item) = true ->
  parse_amount (get "price" item) = Some n -> n <= 0 ->
  check_price item = Some (InvalidPrice (get "price" item)).
Proof.
  intros Ht Hn Hle. unfold check_price. rewrite Ht, Hn.
  rewrite (proj2 (Z.leb_le n 0)) by done. done.
Qed.

Lemma check_price_positive item n :
  parse_amount (get "price" item) = Some n -> 0 < n -> check_price item = None.
Proof.
  intros Hn Hpos. unfold check_price. rewrite Hn.
  rewrite (proj2 (Z.leb_gt n 0)) by done. by destruct (truthy _).
Qed.

Lemma check_price_unparsable item :
  parse_amount (get "price" item) = None -> check_price item = None.
Proof. intros Hn. unfold check_price. rewrite Hn. by destruct (truthy _). Qed.

Lemma after_price_accepts item :
  get "fee" item = PNone -> get "rooms" item = PNone -> after_price item = Accepted item.
Proof.
  intros Hfee Hrooms. unfold after_price, check_fee, check_rooms.
  rewrite Hfee, Hrooms. done.
Qed.

(** C5 (as amended): for an item that has its required fields and a price
    that counts as true, a price that reads, once spaces and commas are taken
    out, as an integer [n <= 0] drops the item; a price that does not read as
    an integer then does not: the item goes on to the blocks after the price
    block, and is handed on when it has no fee and no room count. *)
Theorem price_check item :
  check_required required_fields item = None ->
  truthy (get "price" item) = true ->
  (forall n, parse_amount (get "price" item) = Some n -> n <= 0 ->
             process_item item = Dropped (InvalidPrice (get "price" item))) /\
  (parse_amount (get "price" item) = None ->
     process_item item = after_price item /\
     (get "fee" item = PNone -> get "rooms" item = PNone ->
      process_item item = Accepted item)).
Proof.
  intros Hreq Ht. unfold process_item. rewrite Hreq. split.
  - intros n Hn Hle. rewrite (check_price_nonpositive item n) by done. done.
  - intros Hn. rewrite check_price_unparsable by done.
    split; [done|]. apply after_price_accepts.
Qed.

(** The price -1000000 of the test for negative prices, and the price
    "not a number". *)
Lemma price_check_witness :
  process_item (Samples.priced (PInt (-1000000))) = Dropped (InvalidPrice (PInt (-1000000))) /\
  process_item (Samples.priced (PStr "not a number")) =
    Accepted (Samples.priced (PStr "not a number")).
Proof.
  split.
  - refine (proj1 (price_check (Samples.priced (PInt (-1000000))) _ _) (-1000000) _ _);
      [reflexivity | reflexivity | vm_compute; reflexivity | lia].
  - refine (proj2 (proj2 (price_check (Samples.priced (PStr "not a number")) _ _) _) _ _);
      [reflexivity | reflexivity | vm_compute; reflexivity | reflexivity | reflexivity].
Defined.

(** C5 (as stated) fails: an item with its required fields and the price
    "not a number", which does not read as a number, is handed on. *)
Lemma unparsable_price_accepted :
  parse_amount (get "price" (Samples.priced (PStr "not a number"))) = None /\
  process_item (Samples.priced (PStr "not a number")) =
    Accepted (Samples.priced (PStr "not a number")).
Proof. split; vm_compute; reflexivity. Qed.

(** A currency suffix is not taken out: the price does not read as an
    integer, and the item is handed on all the same. *)
Example price_with_currency_accepted :
  parse_amount (PStr "3 995 000 kr") = None /\
  process_item (Samples.priced (PStr "3 995 000 kr")) =
    Accepted (Samples.priced (PStr "3 995 000 kr")).
Proof. split; vm_compute; reflexivity. Qed.

(** The price block stands behind [if item.get('price')]: the integer 0
    counts as false there, so the price 0 is not looked at. *)
Example zero_price_not_checked :
  process_item (Samples.priced (PInt 0)) = Accepted (Samples.priced (PInt 0)).
Proof. vm_compute. reflexivity. Qed.

(** A room count beyond the range of [float] ends [process_item] with an
    exception that is not [DropItem]. *)
Example huge_room_count_raises :
  process_item (<["rooms" := PInt (2 ^ 1024)]> Samples.first_listing) = Raised OverflowError.
Proof. vm_compute. reflexivity. Qed.

Example zero_price_string_dropped :
  process_item (Samples.priced (PStr "0")) = Dropped (InvalidPrice (PStr "0")).
Proof. vm_compute. reflexivity. Qed.

End Validation.

(** ** Enrichment *)

Section Enrichment.

Import Py DataEnrichmentPipeline.

Implicit Types (item : gmap string pyval).

Lemma standardize_strict field item :
  strict_boolean field item -> standardize field item = item.
Proof.
  intros [Hnone | [b Hb]]; unfold standardize.
  - rewrite decide_False; [done|]. intros Hne. done.
  - assert (Hget : get field item = PBool b) by (unfold get; rewrite Hb; done).
    rewrite Hget. rewrite decide_True by done. simpl.
    apply insert_id. done.
Qed.

(** What the loop makes of a field that holds a value: its truth value. *)
Lemma standardize_lookup field item :
  get field item ≠ PNone ->
  standardize field item !! field = Some (PBool (truthy (get field item))).
Proof.
  intros Hne. unfold standardize. rewrite decide_True by done.
  apply lookup_insert_eq.
Qed.

Lemma standardize_get_ne field field' item :
  field ≠ field' -> get field' (standardize field item) = get field' item.
Proof.
  intros Hne. unfold standardize. case_decide; [|done].
  unfold get. rewrite lookup_insert_ne by done. done.
Qed.

Lemma standardize_is_strict field item : strict_boolean field (standardize field item).
Proof.
  unfold strict_boolean. destruct (decide (get field item = PNone)) as [Hnone|Hne].
  - left. unfold standardize. rewrite decide_False by (intros H; done). done.
  - right. eexists. apply standardize_lookup. done.
Qed.

Lemma strict_boolean_insert_ne field field' v item :
  field ≠ field' -> strict_boolean field item -> strict_boolean field (<[field' := v]> item).
Proof.
  intros Hne. unfold strict_boolean, get. rewrite lookup_insert_ne by done. done.
Qed.

Lemma strict_boolean_standardize_ne field field' item :
  field ≠ field' -> strict_boolean field item -> strict_boolean field (standardize field' item).
Proof.
  intros Hne Hs. unfold standardize. case_decide; [|done].
  apply strict_boolean_insert_ne; done.
Qed.

Lemma process_item_enriched now item : enriched item -> process_item now item = item.
Proof.
  intros (He & Hb & Hs). unfold process_item. simpl.
  rewrite (standardize_strict "has_elevator") by done.
  rewrite (standardize_strict "has_balcony") by done.
  rewrite Hs. done.
Qed.

(** Every item leaves the enricher in the state [enriched], as long as the
    clock gives a time stamp that is not empty. *)
Lemma process_item_makes_enriched now item :
  now ≠ "" -> enriched (process_item now item).
Proof.
  intros Hnow. unfold process_item. simpl.
  set (item' := standardize "has_balcony" (standardize "has_elevator" item)).
  assert (He : strict_boolean "has_elevator" item').
  { apply strict_boolean_standardize_ne; [done|]. apply standardize_is_strict. }
  assert (Hb : strict_boolean "has_balcony" item') by apply standardize_is_strict.
  destruct (truthy (get "scraped_at" item')) eqn:Hs; simpl.
  - done.
  - repeat split.
    + apply strict_boolean_insert_ne; done.
    + apply strict_boolean_insert_ne; done.
    + unfold get. rewrite lookup_insert_eq. simpl.
      apply negb_true_iff, String.eqb_neq. done.
Qed.

(** C7: on an item whose amenity fields are strict booleans and whose
    [scraped_at] holds a time stamp the enricher changes no field; the time
    stamp stays, whatever the clock says. *)
Theorem enricher_idempotent now item :
  enriched item ->
  process_item now item = item /\
  process_item now item !! "scraped_at" = item !! "scraped_at".
Proof.
  intros Hclean. rewrite process_item_enriched by done. done.
Qed.

Lemma clean_listing_enriched : enriched Samples.clean_listing.
Proof.
  repeat split.
  - right. exists true. reflexivity.
  - right. exists false. reflexivity.
Qed.

(** An item with an elevator, no balcony and a time stamp of 2023, enriched
    again in 2024. *)
Lemma enricher_idempotent_witness :
  enriched Samples.clean_listing /\
  process_item "2024-06-01T08:30:00" Samples.clean_listing = Samples.clean_listing.
Proof.
  split; [apply clean_listing_enriched|].
  apply (enricher_idempotent "2024-06-01T08:30:00" Samples.clean_listing
           clean_listing_enriched).
Defined.

(** The enricher applied twice, at two readings of the clock, to any item. *)
Lemma process_item_twice now now' item :
  now ≠ "" -> process_item now' (process_item now item) = process_item now item.
Proof.
  intros Hnow. apply process_item_enriched, process_item_makes_enriched. done.
Qed.

(** C6: the enricher takes the truth value of the field, it does not match
    tokens. The value "no" becomes [True] in the enricher, where
    [parse_boolean] of the item loaders makes it [False]. *)
Theorem enricher_coerces_by_truth_value :
  process_item "2024-06-01T08:30:00" (<["has_elevator" := PStr "no"]> Samples.first_listing)
    !! "has_elevator" = Some (PBool true) /\
  Items.parse_boolean (PStr "no") = false.
Proof. split; vm_compute; reflexivity. Qed.

(** In general: a field that holds a value gets its truth value. *)
Lemma process_item_has_elevator now item :
  get "has_elevator" item ≠ PNone ->
  process_item now item !! "has_elevator" =
    Some (PBool (truthy (get "has_elevator" item))).
Proof.
  intros Hne. unfold process_item. simpl.
  assert (Hl : standardize "has_balcony" (standardize "has_elevator" item) !! "has_elevator"
               = Some (PBool (truthy (get "has_elevator" item)))).
  { unfold standardize at 1. case_decide.
    - rewrite lookup_insert_ne by done. apply standardize_lookup. done.
    - apply standardize_lookup. done. }
  destruct (negb _); [|done].
  rewrite lookup_insert_ne by done. done.
Qed.

(** [parse_boolean] is the function that matches the tokens, after lowering
    the case and stripping white space. *)
Example parse_boolean_tokens :
  map Items.parse_boolean
      [PStr "yes"; PStr "ja"; PStr "true"; PStr "1"; PStr "finns"; PStr "hiss";
       PStr " Ja "; PBool true; PInt 1;
       PStr "no"; PStr "nej"; PStr ""; PNone; PBool false; PInt 5] =
  [true; true; true; true; true; true; true; true; true;
   false; false; false; false; false; false].
Proof. vm_compute. reflexivity. Qed.

End Enrichment.

(** ** Strings and integers *)

Section Strings.

Import Py Items ValidationPipeline.
Local Open Scope Z_scope.

Implicit Types (s : string) (c : ascii) (f : ascii -> bool).

Lemma lstrip_list_spec s :
  String.list_ascii_of_string (lstrip s) = lstrip_list (String.list_ascii_of_string s).
Proof. induction s as [|c s IH]; simpl; [done|]. destruct (is_space c); done. Qed.

Lemma lstrip_list_snoc l c :
  lstrip_list (l ++ [c]) =
  if forallb is_space l then (if is_space c then [] else [c]) else lstrip_list l ++ [c].
Proof.
  induction l as [|x l IH]; simpl; [done|].
  destruct (is_space x); simpl; done.
Qed.

Lemma lstrip_list_nil l : lstrip_list l = [] <-> forallb is_space l = true.
Proof.
  induction l as [|x l IH]; simpl; [done|].
  destruct (is_space x); simpl; [done|]. split; done.
Qed.

Lemma rstrip_nil : rstrip "" = "".
Proof. reflexivity. Qed.

Lemma rstrip_cons c s :
  rstrip (String c s) =
  if String.eqb (rstrip s) "" && is_space c then EmptyString else String c (rstrip s).
Proof.
  unfold rstrip, string_rev. simpl.
  rewrite !lstrip_list_spec, !String.list_ascii_of_string_of_list_ascii.
  rewrite lstrip_list_snoc.
  destruct (forallb is_space (rev (String.list_ascii_of_string s))) eqn:Hall.
  - apply lstrip_list_nil in Hall. rewrite Hall. simpl.
    destruct (is_space c); done.
  - assert (lstrip_list (rev (String.list_ascii_of_string s)) <> []) as Hne.
    { intros H. apply lstrip_list_nil in H. congruence. }
    rewrite rev_app_distr. simpl.
    destruct (rev (lstrip_list (rev (String.list_ascii_of_string s)))) eqn:Hr.
    + apply (f_equal (@rev _)) in Hr. rewrite rev_involutive in Hr. done.
    + simpl. done.
Qed.

(** The two cases of [rstrip] on a string with a first character. *)
Lemma rstrip_cons_cases c s :
  (rstrip s = "" /\ is_space c = true /\ rstrip (String c s) = "") \/
  ((rstrip s <> "" \/ is_space c = false) /\ rstrip (String c s) = String c (rstrip s)).
Proof.
  rewrite rstrip_cons. destruct (rstrip s) as [|x r]; simpl.
  - destruct (is_space c); [left; done | right; split; [by right | done]].
  - right. split; [by left | done].
Qed.

Lemma lstrip_idemp s : lstrip (lstrip s) = lstrip s.
Proof.
  induction s as [|c s IH]; simpl; [done|].
  destruct (is_space c) eqn:Hc; [done|]. simpl. by rewrite Hc.
Qed.

Lemma rstrip_idemp s : rstrip (rstrip s) = rstrip s.
Proof.
  induction s as [|c s IH]; [done|].
  destruct (rstrip_cons_cases c s) as [(_ & _ & ->) | [Hcase ->]]; [done|].
  destruct (rstrip_cons_cases c (rstrip s)) as [(Hr & Hc & _) | [_ ->]].
  - rewrite IH in Hr. destruct Hcase; congruence.
  - by rewrite IH.
Qed.

Lemma lstrip_starts_clean s : starts_clean (lstrip s).
Proof.
  induction s as [|c s IH]; simpl; [done|].
  destruct (is_space c) eqn:Hc; [done|]. simpl. done.
Qed.

Lemma lstrip_clean s : starts_clean s -> lstrip s = s.
Proof. destruct s as [|c s]; simpl; [done|]. by intros ->. Qed.

Lemma rstrip_starts_clean s : starts_clean s -> starts_clean (rstrip s).
Proof.
  destruct s as [|c s]; [done|]. simpl. intros Hc.
  destruct (rstrip_cons_cases c s) as [(_ & ? & _) | [_ ->]]; [congruence | done].
Qed.

Lemma strip_idemp s : strip (strip s) = strip s.
Proof.
  unfold strip.
  rewrite (lstrip_clean (rstrip (lstrip s)))
    by apply rstrip_starts_clean, lstrip_starts_clean.
  apply rstrip_idemp.
Qed.

Lemma all_chars_lstrip f s : all_chars f s = true -> all_chars f (lstrip s) = true.
Proof.
  induction s as [|c s IH]; simpl; [done|].
  intros [Hc Hs]%andb_true_iff. destruct (is_space c); [auto|]. simpl. by rewrite Hc, Hs.
Qed.

Lemma all_chars_rstrip f s : all_chars f s = true -> all_chars f (rstrip s) = true.
Proof.
  induction s as [|c s IH]; [done|]. simpl.
  intros [Hc Hs]%andb_true_iff.
  destruct (rstrip_cons_cases c s) as [(_ & _ & ->) | [_ ->]]; [done|].
  simpl. by rewrite Hc, IH.
Qed.

Lemma all_chars_strip f s : all_chars f s = true -> all_chars f (strip s) = true.
Proof. intros H. by apply all_chars_rstrip, all_chars_lstrip. Qed.

Lemma all_chars_keep f s : all_chars f (keep f s) = true.
Proof.
  induction s as [|c s IH]; simpl; [done|].
  destruct (f c) eqn:Hc; [|done]. simpl. by rewrite Hc.
Qed.

Lemma keep_all_chars f s : all_chars f s = true -> keep f s = s.
Proof.
  induction s as [|c s IH]; simpl; [done|].
  intros [-> Hs]%andb_true_iff. by rewrite IH.
Qed.

Lemma all_chars_impl f g s :
  (forall c, f c = true -> g c = true) -> all_chars f s = true -> all_chars g s = true.
Proof.
  intros Hfg. induction s as [|c s IH]; simpl; [done|].
  intros [Hc Hs]%andb_true_iff. by rewrite (Hfg c Hc), IH.
Qed.

Lemma digit_not_space c : is_digit c = true -> is_space c = false.
Proof.
  unfold is_digit, is_space, ascii_in.
  intros [H1 H2]%andb_true_iff. apply N.leb_le in H1, H2.
  apply orb_false_iff. split; apply andb_false_iff.
  - right. apply N.leb_gt. lia.
  - right. apply N.leb_gt. lia.
Qed.

(** A string without white space is its own [strip]. *)
Lemma rstrip_no_space s :
  all_chars (fun c => negb (is_space c)) s = true -> rstrip s = s.
Proof.
  induction s as [|c s IH]; [done|]. simpl.
  intros [Hc Hs]%andb_true_iff. apply negb_true_iff in Hc.
  destruct (rstrip_cons_cases c s) as [(_ & ? & _) | [_ ->]]; [congruence|].
  by rewrite IH.
Qed.

Lemma strip_no_space s :
  all_chars (fun c => negb (is_space c)) s = true -> strip s = s.
Proof.
  intros H. unfold strip. rewrite lstrip_clean.
  - by apply rstrip_no_space.
  - destruct s as [|c s]; simpl in *; [done|].
    apply andb_true_iff in H as [Hc _]. by apply negb_true_iff.
Qed.

Lemma take_digits_rstrip s : take_digits (rstrip s) = take_digits s.
Proof.
  induction s as [|c s IH]; [done|].
  destruct (rstrip_cons_cases c s) as [(_ & Hc & ->) | [_ ->]]; simpl.
  - destruct (is_digit c) eqn:Hd; [|done].
    apply digit_not_space in Hd. congruence.
  - by rewrite IH.
Qed.

Lemma first_digit_run_lstrip s : first_digit_run (lstrip s) = first_digit_run s.
Proof.
  induction s as [|c s IH]; simpl; [done|].
  destruct (is_space c) eqn:Hc; [|done].
  destruct (is_digit c) eqn:Hd; [|done].
  apply digit_not_space in Hd. congruence.
Qed.

Lemma first_digit_run_rstrip s : first_digit_run (rstrip s) = first_digit_run s.
Proof.
  induction s as [|c s IH]; [done|].
  destruct (rstrip_cons_cases c s) as [(Hr & Hc & ->) | [_ ->]]; simpl.
  - destruct (is_digit c) eqn:Hd.
    + apply digit_not_space in Hd. congruence.
    + by rewrite <- IH, Hr.
  - by rewrite IH, take_digits_rstrip.
Qed.

Lemma first_digit_run_strip s : first_digit_run (strip s) = first_digit_run s.
Proof. unfold strip. by rewrite first_digit_run_rstrip, first_digit_run_lstrip. Qed.


Lemma digit_value_range c : is_digit c = true -> 0 <= digit_value c <= 9.
Proof.
  unfold is_digit, ascii_in, digit_value.
  intros [H1 H2]%andb_true_iff. apply N.leb_le in H1, H2. lia.
Qed.

Lemma digits_value_nonneg acc s :
  all_chars is_digit s = true -> 0 <= acc -> acc <= digits_value acc s.
Proof.
  revert acc. induction s as [|c s IH]; intros acc; simpl; [lia|].
  intros [Hc Hs]%andb_true_iff Hacc. apply digit_value_range in Hc.
  etrans; [|apply IH; [done|lia]]. lia.
Qed.

Lemma parse_digits_all_digits acc b s :
  all_chars is_digit s = true -> s <> "" \/ b = true ->
  parse_digits acc b s = Some (digits_value acc s).
Proof.
  revert acc b. induction s as [|c s IH]; intros acc b; simpl.
  - intros _ [?| ->]; done.
  - intros [Hc Hs]%andb_true_iff _. rewrite Hc. apply IH; [done | by right].
Qed.

Lemma skip_leading_absent f s :
  all_chars (fun c => negb (f c)) s = true -> skip_leading f s = s.
Proof.
  destruct s as [|c s]; simpl; [done|].
  intros [Hc _]%andb_true_iff. apply negb_true_iff in Hc. by rewrite Hc.
Qed.

Lemma skip_trailing_absent f s :
  all_chars (fun c => negb (f c)) s = true -> skip_trailing f s = s.
Proof.
  induction s as [|c s IH]; simpl; [done|].
  intros [Hc Hs]%andb_true_iff. apply negb_true_iff in Hc.
  rewrite IH by done. rewrite Hc. by destruct s.
Qed.

(** Every character that [int] skips is white space for [str.strip] too. *)
Lemma int_space_is_space c : is_int_space c = true -> is_space c = true.
Proof.
  unfold is_int_space, is_space. intros [H | H]%orb_true_iff.
  - by rewrite H.
  - apply Ascii.eqb_eq in H as ->. reflexivity.
Qed.

Lemma not_space_not_int_space c : is_space c = false -> is_int_space c = false.
Proof.
  intros Hc. destruct (is_int_space c) eqn:Hi; [|done].
  apply int_space_is_space in Hi. congruence.
Qed.

Lemma digits_no_int_space s :
  all_chars is_digit s = true -> all_chars (fun c => negb (is_int_space c)) s = true.
Proof.
  apply all_chars_impl. intros c Hc.
  by rewrite (not_space_not_int_space c (digit_not_space c Hc)).
Qed.

(** A separator 0x1f in front of the digits is removed by [str.strip] and
    makes [int] fail; the white space [int] knows is skipped on both
    sides. *)
Example int_of_str_separator :
  int_of_str (String (ascii_of_N 31) "-5") = None /\
  strip (String (ascii_of_N 31) "-5") = "-5" /\
  int_of_str (String (ascii_of_N 9) " -5 " +:+ String (ascii_of_N 10) "") = Some (-5).
Proof. repeat split; reflexivity. Qed.

Lemma int_of_str_digits s :
  all_chars is_digit s = true -> s <> "" -> int_of_str s = Some (digits_value 0 s).
Proof.
  intros Hs Hne. unfold int_of_str.
  rewrite skip_leading_absent, skip_trailing_absent by (by apply digits_no_int_space).
  rewrite <- (parse_digits_all_digits 0 false s) by auto.
  destruct s as [|c s]; [done|]. simpl in Hs. apply andb_true_iff in Hs as [Hc _].
  destruct c as [[] [] [] [] [] [] [] []]; try discriminate Hc; reflexivity.
Qed.

Lemma take_digits_all s : all_chars is_digit (take_digits s) = true.
Proof.
  induction s as [|c s IH]; simpl; [done|].
  destruct (is_digit c) eqn:Hc; [|done]. simpl. by rewrite Hc.
Qed.

Lemma first_digit_run_Some s g :
  first_digit_run s = Some g -> all_chars is_digit g = true /\ g <> "".
Proof.
  induction s as [|c s IH]; simpl; [done|].
  destruct (is_digit c) eqn:Hc; [|done].
  intros [= <-]. simpl. rewrite Hc, take_digits_all. done.
Qed.

Lemma first_digit_run_None s :
  first_digit_run s = None <-> all_chars (fun c => negb (is_digit c)) s = true.
Proof.
  induction s as [|c s IH]; simpl; [done|].
  destruct (is_digit c); simpl; [split; done | done].
Qed.

Lemma take_digits_app ds post :
  all_chars is_digit ds = true ->
  no_digit_ahead post ->
  take_digits (ds +:+ post) = ds.
Proof.
  intros Hds Hpost. induction ds as [|c ds IH]; simpl in *.
  - destruct post as [|c post]; simpl; [done|]. by rewrite Hpost.
  - apply andb_true_iff in Hds as [-> Hds]. by rewrite IH.
Qed.

Lemma first_digit_run_app pre ds post :
  all_chars (fun c => negb (is_digit c)) pre = true ->
  all_chars is_digit ds = true -> ds <> "" ->
  no_digit_ahead post ->
  first_digit_run (pre +:+ ds +:+ post) = Some ds.
Proof.
  intros Hpre Hds Hne Hpost. induction pre as [|c pre IH]; simpl in *.
  - destruct ds as [|c ds]; [done|]. simpl in *.
    apply andb_true_iff in Hds as [-> Hds]. by rewrite take_digits_app.
  - apply andb_true_iff in Hpre as [Hc Hpre]. apply negb_true_iff in Hc.
    rewrite Hc. auto.
Qed.

(** The decimal text of an integer, read back. *)
Lemma pretty_N_char_digit x :
  (x < 10)%N -> is_digit (pretty_N_char x) = true /\ digit_value (pretty_N_char x) = Z.of_N x.
Proof.
  intros Hx.
  assert (x = 0 \/ x = 1 \/ x = 2 \/ x = 3 \/ x = 4 \/ x = 5 \/ x = 6 \/ x = 7 \/ x = 8
          \/ x = 9)%N as Hcases by lia.
  repeat (destruct Hcases as [-> | Hcases]; [done|]). by subst.
Qed.

Lemma parse_digits_pretty_N_go x s acc b :
  (0 < x)%N ->
  exists k, parse_digits acc b (pretty_N_go x s) = parse_digits (acc * 10 ^ k + Z.of_N x) true s
            /\ 0 <= k.
Proof.
  revert s acc b. induction (N.lt_wf_0 x) as [x _ IH]; intros s acc b Hx.
  rewrite pretty_N_go_step by done.
  destruct (pretty_N_char_digit (x `mod` 10)) as [Hd Hv]; [by apply N.mod_lt|].
  destruct (decide (x `div` 10 = 0)%N) as [Hdiv | Hdiv].
  - rewrite Hdiv, pretty_N_go_0. simpl. rewrite Hd, Hv.
    exists 1. split; [|lia]. f_equal.
    pose proof (N.div_mod x 10 ltac:(lia)). rewrite Z.pow_1_r. lia.
  - destruct (IH (x `div` 10)%N) with
      (s := String (pretty_N_char (x `mod` 10)) s) (acc := acc) (b := b) as (k & -> & Hk).
    { apply N.div_lt; [done | lia]. }
    { by apply N.neq_0_lt_0. }
    simpl. rewrite Hd, Hv. exists (k + 1). split; [|lia]. f_equal.
    rewrite Z.pow_add_r, Z.pow_1_r by lia.
    pose proof (N.div_mod x 10 ltac:(lia)). lia.
Qed.

Lemma all_chars_pretty_N_go f x s :
  (forall d, (d < 10)%N -> f (pretty_N_char d) = true) ->
  all_chars f s = true -> all_chars f (pretty_N_go x s) = true.
Proof.
  intros Hf. revert s. induction (N.lt_wf_0 x) as [x _ IH]; intros s Hs.
  destruct (decide (x = 0)%N) as [-> | Hx]; [by rewrite pretty_N_go_0|].
  rewrite pretty_N_go_step by lia. apply IH.
  - apply N.div_lt; lia.
  - simpl. rewrite Hf by (by apply N.mod_lt). done.
Qed.

Lemma pretty_pos_digits (p : positive) :
  all_chars is_digit (pretty p) = true /\ pretty p <> "" /\
  digits_value 0 (pretty p) = Z.pos p.
Proof.
  unfold pretty, pretty_positive, pretty, pretty_N.
  rewrite decide_False by done.
  assert (Hall : all_chars is_digit (pretty_N_go (N.pos p) "") = true).
  { apply all_chars_pretty_N_go; [|done]. intros d Hd. by apply pretty_N_char_digit. }
  assert (Hne : pretty_N_go (N.pos p) "" <> "").
  { intros H0. destruct (parse_digits_pretty_N_go (N.pos p) "" 0 false) as (k & Hk & _); [done|].
    rewrite H0 in Hk. simpl in Hk. done. }
  split; [done|]. split; [done|].
  destruct (parse_digits_pretty_N_go (N.pos p) "" 0 false) as (k & Hk & _); [done|].
  rewrite parse_digits_all_digits in Hk by auto. simpl in Hk. by injection Hk.
Qed.

Lemma int_of_str_pretty (z : Z) : int_of_str (pretty z) = Some z.
Proof.
  destruct z as [|p|p]; [done| |].
  - destruct (pretty_pos_digits p) as (Hall & Hne & Hv).
    change (pretty (Z.pos p)) with (pretty p).
    rewrite int_of_str_digits by done. by rewrite Hv.
  - destruct (pretty_pos_digits p) as (Hall & Hne & Hv).
    change (pretty (Z.neg p)) with (String "-" (pretty p)).
    assert (Hsp : all_chars (fun c => negb (is_int_space c)) (String "-" (pretty p)) = true).
    { simpl. by apply digits_no_int_space. }
    unfold int_of_str. rewrite skip_leading_absent, skip_trailing_absent by done.
    rewrite parse_digits_all_digits by auto. simpl. by rewrite Hv.
Qed.

Lemma remove_char_absent c s :
  all_chars (fun x => negb (Ascii.eqb x c)) s = true -> remove_char c s = s.
Proof.
  induction s as [|x s IH]; simpl; [done|].
  intros [Hx Hs]%andb_true_iff. apply negb_true_iff in Hx. by rewrite Hx, IH.
Qed.

Lemma all_chars_pretty_Z f (z : Z) :
  f "-"%char = true -> (forall d, (d < 10)%N -> f (pretty_N_char d) = true) ->
  all_chars f (pretty z) = true.
Proof.
  intros Hdash Hf. destruct z as [|p|p].
  - pose proof (Hf 0%N eq_refl) as H0. cbn in *. by rewrite H0.
  - change (pretty (Z.pos p)) with (pretty_N (N.pos p)). unfold pretty_N.
    rewrite decide_False by done. by apply all_chars_pretty_N_go.
  - change (pretty (Z.neg p)) with (String "-" (pretty_N (N.pos p))). unfold pretty_N.
    rewrite decide_False by done. simpl. rewrite Hdash. by apply all_chars_pretty_N_go.
Qed.

Lemma parse_amount_int (z : Z) : parse_amount (PInt z) = Some z.
Proof.
  unfold parse_amount. simpl.
  rewrite !remove_char_absent; [apply int_of_str_pretty|..].
  - apply all_chars_pretty_Z; [done|]. intros d Hd.
    assert (d = 0 \/ d = 1 \/ d = 2 \/ d = 3 \/ d = 4 \/ d = 5 \/ d = 6 \/ d = 7 \/ d = 8
          \/ d = 9)%N as Hcases by lia.
    repeat (destruct Hcases as [-> | Hcases]; [done|]). by subst.
  - rewrite remove_char_absent.
    all: apply all_chars_pretty_Z; [done|]; intros d Hd;
    assert (d = 0 \/ d = 1 \/ d = 2 \/ d = 3 \/ d = 4 \/ d = 5 \/ d = 6 \/ d = 7 \/ d = 8
          \/ d = 9)%N as Hcases by lia;
    repeat (destruct Hcases as [-> | Hcases]; [done|]); by subst.
Qed.


End Strings.

(** ** The processors of the item loader *)

Section ItemLoaders.

Import Py Items ValidationPipeline.
Local Open Scope Z_scope.

Implicit Types (s : string) (v : pyval).

Lemma parse_integer_str s :
  parse_integer (PStr s) =
  match first_digit_run s with
  | Some group => int_of_str group
  | None => None
  end.
Proof.
  unfold parse_integer. simpl. destruct s as [|c s]; [done|]. done.
Qed.

Lemma int_of_str_group s group :
  first_digit_run s = Some group -> int_of_str group = Some (digits_value 0 group).
Proof.
  intros [Hall Hne]%first_digit_run_Some. by apply int_of_str_digits.
Qed.

Lemma parse_integer_nonneg v n : parse_integer v = Some n -> 0 <= n.
Proof.
  unfold parse_integer. destruct (truthy v); [|done].
  destruct (first_digit_run (str v)) as [group|] eqn:Hrun; [|done].
  rewrite (int_of_str_group _ _ Hrun).
  apply first_digit_run_Some in Hrun as [Hall _].
  intros [= <-]. by apply digits_value_nonneg.
Qed.

(** X1: [parse_integer] gives [None] exactly for a value that counts as false or
    whose text holds no digit; any number it gives is the value of a run of
    digits, so it is never negative: a sign in front is not read. *)
Theorem parse_integer_result v :
  (parse_integer v = None <->
     truthy v = false \/ all_chars (fun c => negb (is_digit c)) (str v) = true) /\
  (forall n, parse_integer v = Some n -> 0 <= n).
Proof.
  unfold parse_integer. destruct (truthy v); [|split; [split; auto | done]].
  destruct (first_digit_run (str v)) as [group|] eqn:Hrun.
  - rewrite (int_of_str_group _ _ Hrun).
    apply first_digit_run_Some in Hrun as Hgroup. destruct Hgroup as [Hall _].
    split.
    + split; [done|]. intros [? | Hnone]; [done|].
      apply first_digit_run_None in Hnone. congruence.
    + intros n [= <-]. by apply digits_value_nonneg.
  - split; [|done]. split; [|done]. intros _. right.
    by apply first_digit_run_None.
Qed.

(** X2: [parse_integer] reads the first run of digits of a text and nothing
    after it. *)
Theorem parse_integer_first_run pre ds post :
  all_chars (fun c => negb (is_digit c)) pre = true ->
  all_chars is_digit ds = true -> ds <> "" -> no_digit_ahead post ->
  parse_integer (PStr (pre +:+ ds +:+ post)) = Some (digits_value 0 ds).
Proof.
  intros Hpre Hds Hne Hpost. rewrite parse_integer_str.
  rewrite first_digit_run_app by done. by apply int_of_str_digits.
Qed.

(** The text "floor 3 of 5": the floor is 3. *)
Lemma parse_integer_first_run_witness :
  parse_integer (PStr "floor 3 of 5") = Some 3.
Proof.
  apply (parse_integer_first_run "floor " "3" " of 5"); [reflexivity | reflexivity | | reflexivity].
  discriminate.
Defined.

Lemma keep_app f s1 s2 : keep f (s1 +:+ s2) = keep f s1 +:+ keep f s2.
Proof.
  induction s1 as [|c s1 IH]; simpl; [done|].
  destruct (f c); simpl; by rewrite IH.
Qed.

Lemma digit_price_char c : is_digit c = true -> price_char c = true.
Proof. unfold price_char. by intros ->. Qed.

Lemma price_in_str s :
  price_in (PStr s) =
  match first_digit_run (keep price_char s) with
  | Some group => int_of_str group
  | None => None
  end.
Proof.
  unfold price_in, clean_price. simpl. destruct (String.eqb s "") eqn:Hs; simpl.
  - apply String.eqb_eq in Hs as ->. done.
  - by rewrite parse_integer_str, first_digit_run_strip.
Qed.

(** X3: A price written in groups of digits is read as its first group: the
    white space or comma after the group stays in the text that [clean_price]
    hands to [parse_integer], and ends the run of digits there. *)
Theorem price_in_first_group ds sep rest :
  all_chars is_digit ds = true -> ds <> "" ->
  is_space sep = true \/ sep = ","%char ->
  price_in (PStr (ds +:+ String sep rest)) = Some (digits_value 0 ds).
Proof.
  intros Hds Hne Hsep. rewrite price_in_str, keep_app.
  rewrite (keep_all_chars price_char ds)
    by (eapply all_chars_impl; [apply digit_price_char | done]).
  assert (Hkeep : price_char sep = true /\ is_digit sep = false).
  { destruct Hsep as [Hsp | ->]; [|done]. unfold price_char. rewrite Hsp.
    split; [by rewrite orb_true_r|].
    destruct (is_digit sep) eqn:Hd; [|done]. apply digit_not_space in Hd. congruence. }
  destruct Hkeep as [Hpc Hnd]. simpl. rewrite Hpc.
  pose proof (first_digit_run_app "" ds (String sep (keep price_char rest))
                eq_refl Hds Hne Hnd) as Hrun.
  change (first_digit_run (ds +:+ String sep (keep price_char rest)) = Some ds) in Hrun.
  rewrite Hrun. by apply int_of_str_digits.
Qed.

(** The price "3 995 000 kr" is read as 3. *)
Lemma price_in_first_group_witness :
  price_in (PStr "3 995 000 kr") = Some 3.
Proof.
  apply (price_in_first_group "3" " " "995 000 kr"); [reflexivity | discriminate | by left].
Defined.

(** Without a separator the digits are read together, whatever stands
    around them that is no digit. *)
Theorem price_in_plain pre ds post :
  all_chars (fun c => negb (is_digit c)) pre = true ->
  all_chars is_digit ds = true -> ds <> "" ->
  all_chars (fun c => negb (price_char c)) post = true ->
  price_in (PStr (pre +:+ ds +:+ post)) = Some (digits_value 0 ds).
Proof.
  intros Hpre Hds Hne Hpost. rewrite price_in_str, !keep_app.
  rewrite (keep_all_chars price_char ds)
    by (eapply all_chars_impl; [apply digit_price_char | done]).
  assert (Hpost' : keep price_char post = "").
  { clear -Hpost. induction post as [|c post IH]; simpl in *; [done|].
    apply andb_true_iff in Hpost as [Hc Hpost]. apply negb_true_iff in Hc.
    rewrite Hc. auto. }
  rewrite Hpost'.
  rewrite (first_digit_run_app (keep price_char pre) ds "").
  - by apply int_of_str_digits.
  - clear -Hpre. induction pre as [|c pre IH]; simpl in *; [done|].
    apply andb_true_iff in Hpre as [Hc Hpre].
    destruct (price_char c); simpl; [rewrite Hc|]; auto.
  - done.
  - done.
  - done.
Qed.

(** The price "SEK 3995000:-" is read as 3995000. *)
Lemma price_in_plain_witness :
  price_in (PStr "SEK 3995000:-") = Some 3995000.
Proof.
  apply (price_in_plain "SEK " "3995000" ":-"); [reflexivity | reflexivity | | reflexivity].
  discriminate.
Defined.

(** X4: [clean_price] and [clean_text] applied twice give what they give applied
    once. *)
Theorem cleaners_idempotent v :
  clean_price (clean_price v) = clean_price v /\
  clean_text (clean_text v) = clean_text v.
Proof.
  unfold clean_price, clean_text. destruct (truthy v) eqn:Hv.
  - split.
    + set (t := strip (keep price_char (str v))).
      simpl. destruct (String.eqb t "") eqn:Ht; simpl; [done|].
      rewrite (keep_all_chars price_char t)
        by apply all_chars_strip, all_chars_keep.
      unfold t. by rewrite strip_idemp.
    + set (t := strip (str v)).
      simpl. destruct (String.eqb t "") eqn:Ht; simpl; [done|].
      unfold t. by rewrite strip_idemp.
  - by rewrite Hv.
Qed.

(** X5: What [clean_price] returns for a value that counts as true is a text of
    digits, white space and commas with no white space at either end. *)
Theorem clean_price_shape v :
  truthy v = true ->
  exists t, clean_price v = PStr t /\ all_chars price_char t = true /\ strip t = t.
Proof.
  intros Hv. unfold clean_price. rewrite Hv. eexists. split; [done|]. split.
  - apply all_chars_strip, all_chars_keep.
  - apply strip_idemp.
Qed.

Lemma clean_price_shape_witness :
  exists t, clean_price (PStr " 3 995 000 kr ") = PStr t /\
            all_chars price_char t = true /\ strip t = t.
Proof. apply (clean_price_shape (PStr " 3 995 000 kr ")). reflexivity. Defined.

End ItemLoaders.

(** ** Validation: integer amounts and accepted items *)

Section ValidationAmounts.

Import Py Items ValidationPipeline.
Local Open Scope Z_scope.

Implicit Types (item : gmap string pyval).

Lemma check_price_int item z :
  get "price" item = PInt z ->
  check_price item = if z <? 0 then Some (InvalidPrice (PInt z)) else None.
Proof.
  intros Hp. unfold check_price. rewrite Hp, parse_amount_int. simpl.
  destruct (Z.eqb_spec z 0) as [-> | Hz]; simpl; [done|].
  destruct (Z.leb_spec z 0), (Z.ltb_spec z 0); try done; lia.
Qed.

Lemma check_fee_int item z :
  get "fee" item = PInt z ->
  check_fee item = if z <? 0 then Some (InvalidFee (PInt z)) else None.
Proof.
  intros Hp. unfold check_fee. rewrite Hp, parse_amount_int. simpl.
  destruct (Z.eqb_spec z 0) as [-> | Hz]; simpl; [done|]. done.
Qed.

(** An integer price is rejected exactly when it is negative: a negative
    one drops the item, zero and the positive ones let it go on to the later
    blocks. *)
Theorem int_price_checked item z :
  check_required required_fields item = None ->
  get "price" item = PInt z ->
  (z < 0 -> process_item item = Dropped (InvalidPrice (PInt z))) /\
  (0 <= z -> process_item item = after_price item).
Proof.
  intros Hreq Hp. unfold process_item. rewrite Hreq, (check_price_int item z Hp).
  split; intros Hz.
  - by rewrite (proj2 (Z.ltb_lt z 0)).
  - by rewrite (proj2 (Z.ltb_ge z 0)).
Qed.

(** The listing of the tests with the price 3000000. *)
Lemma int_price_checked_witness :
  process_item (Samples.priced (PInt 3000000)) = after_price (Samples.priced (PInt 3000000)).
Proof.
  refine (proj2 (int_price_checked (Samples.priced (PInt 3000000)) 3000000 _ _) _);
    [reflexivity | reflexivity | lia].
Defined.

(** X6: The fee block of an item that passed the blocks before it: a fee that
    reads as a negative integer drops the item; a fee that reads as zero or
    more, or does not read as an integer, does not, and the item is handed on
    when it has no room count. *)
Theorem fee_check item :
  check_required required_fields item = None -> check_price item = None ->
  truthy (get "fee" item) = true ->
  (forall n, parse_amount (get "fee" item) = Some n -> n < 0 ->
             process_item item = Dropped (InvalidFee (get "fee" item))) /\
  (parse_amount (get "fee" item) = None \/
   (exists n, parse_amount (get "fee" item) = Some n /\ 0 <= n) ->
   get "rooms" item = PNone -> process_item item = Accepted item).
Proof.
  intros Hreq Hprice Ht. unfold process_item, after_price, check_fee, check_rooms.
  rewrite Hreq, Hprice, Ht. split.
  - intros n -> Hn. by rewrite (proj2 (Z.ltb_lt n 0)).
  - intros [-> | (n & -> & Hn)] ->; [done|]. by rewrite (proj2 (Z.ltb_ge n 0)).
Qed.

(** A listing with the fee "-4 500", and one with the fee "0". *)
Lemma fee_check_witness :
  process_item (<["fee" := PStr "-4 500"]> Samples.first_listing) =
    Dropped (InvalidFee (PStr "-4 500")) /\
  process_item (<["fee" := PStr "0"]> Samples.first_listing) =
    Accepted (<["fee" := PStr "0"]> Samples.first_listing).
Proof.
  split.
  - refine (proj1 (fee_check (<["fee" := PStr "-4 500"]> Samples.first_listing) _ _ _)
              (-4500) _ _); [reflexivity | reflexivity | reflexivity | reflexivity | lia].
  - refine (proj2 (fee_check (<["fee" := PStr "0"]> Samples.first_listing) _ _ _) _ _);
      [reflexivity | reflexivity | reflexivity | | reflexivity].
    right. exists 0. split; [reflexivity | lia].
Defined.

(** X7: The price check never rejects a price that came through the item
    loader: what [price_in] gives is an integer that is not negative. *)
Theorem loaded_price_passes raw n item :
  price_in raw = Some n -> check_price (<["price" := PInt n]> item) = None.
Proof.
  intros Hraw.
  assert (Hn : 0 <= n) by (eapply parse_integer_nonneg; exact Hraw).
  rewrite (check_price_int _ n) by (unfold get; by rewrite lookup_insert_eq).
  by rewrite (proj2 (Z.ltb_ge n 0)).
Qed.

Lemma loaded_price_passes_witness :
  check_price (<["price" := PInt 3]> Samples.first_listing) = None.
Proof.
  apply (loaded_price_passes (PStr "-3 995 000 kr") 3 Samples.first_listing).
  vm_compute. reflexivity.
Defined.

Lemma check_required_None item :
  check_required required_fields item = None ->
  truthy (get "url" item) = true /\ truthy (get "source" item) = true /\
  truthy (get "address" item) = true.
Proof.
  unfold required_fields. simpl.
  destruct (truthy (get "url" item)); simpl; [|done].
  destruct (truthy (get "source" item)); simpl; [|done].
  destruct (truthy (get "address" item)); simpl; [|done]. done.
Qed.

(** X8: What the validator hands on is the item it was given, with a url, a
    source and an address that count as true; a price it could read as an
    integer is positive, and a fee it could read is not negative. *)
Theorem accepted_items_valid item item' :
  process_item item = Accepted item' ->
  item' = item /\
  truthy (get "url" item) = true /\ truthy (get "source" item) = true /\
  truthy (get "address" item) = true /\
  (truthy (get "price" item) = true ->
   forall n, parse_amount (get "price" item) = Some n -> 0 < n) /\
  (truthy (get "fee" item) = true ->
   forall n, parse_amount (get "fee" item) = Some n -> 0 <= n).
Proof.
  unfold process_item, after_price.
  destruct (check_required required_fields item) eqn:Hreq; [done|].
  destruct (check_price item) eqn:Hprice; [done|].
  destruct (check_fee item) eqn:Hfee; [done|].
  destruct (check_rooms item); [done|].
  intros [= <-]. apply check_required_None in Hreq as (Hu & Hs & Ha).
  repeat split; try done.
  - intros Ht n Hn. unfold check_price in Hprice. rewrite Ht, Hn in Hprice.
    destruct (Z.leb_spec n 0); [done | lia].
  - intros Ht n Hn. unfold check_fee in Hfee. rewrite Ht, Hn in Hfee.
    destruct (Z.ltb_spec n 0); [done | lia].
Qed.

Lemma accepted_items_valid_witness :
  truthy (get "url" (Samples.priced (PStr "3 995 000"))) = true /\
  forall n, parse_amount (get "price" (Samples.priced (PStr "3 995 000"))) = Some n -> 0 < n.
Proof.
  destruct (accepted_items_valid (Samples.priced (PStr "3 995 000"))
              (Samples.priced (PStr "3 995 000")) eq_refl) as (_ & Hu & _ & _ & Hp & _).
  split; [exact Hu|]. apply Hp. reflexivity.
Defined.

(** The white space of [int] is not that of [str.strip]: a price or a fee
    with the separator 0x1f in front of a negative number does not read as
    an integer, so it is logged and the item is handed on; with a line break
    in front it reads as the negative number and the item is dropped. *)
Example separator_amounts_pass :
  parse_amount (PStr (String (ascii_of_N 31) "-5")) = None /\
  process_item (Samples.priced (PStr (String (ascii_of_N 31) "-5"))) =
    Accepted (Samples.priced (PStr (String (ascii_of_N 31) "-5"))) /\
  process_item (<["fee" := PStr (String (ascii_of_N 31) "-5")]> Samples.first_listing) =
    Accepted (<["fee" := PStr (String (ascii_of_N 31) "-5")]> Samples.first_listing) /\
  process_item (Samples.priced (PStr (String (ascii_of_N 10) "-5"))) =
    Dropped (InvalidPrice (PStr (String (ascii_of_N 10) "-5"))).
Proof. repeat split; vm_compute; reflexivity. Qed.

End ValidationAmounts.

(** ** Deduplication: what a run hands on *)

Section Survivors.

Import Py DuplicatesPipeline.
Local Open Scope nat_scope.

Implicit Types (item : gmap string pyval) (items : list (gmap string pyval)).
Implicit Types (seen : gset pyval).

Lemma run_cons seen item items :
  run seen (item :: items) =
  (process_item seen item).1 :: run (process_item seen item).2 items.
Proof. simpl. by destruct (process_item seen item). Qed.

Lemma accepted_keys_fresh seen items :
  NoDup (map url_key (accepted (run seen items))) /\
  forall k, k ∈ map url_key (accepted (run seen items)) -> k ∉ seen.
Proof.
  revert seen. induction items as [|item items IH]; intros seen.
  - split; [constructor | intros k Hk; by apply elem_of_nil in Hk].
  - rewrite run_cons. destruct (decide (url_key item ∈ seen)) as [Hin | Hin].
    + rewrite process_item_seen by done. simpl. apply IH.
    + rewrite process_item_new by done. simpl.
      destruct (IH (seen ∪ {[url_key item]})) as [Hnd Hfresh]. split.
      * constructor; [|done]. intros Hk. apply Hfresh in Hk. set_solver.
      * intros k [-> | Hk]%elem_of_cons; [done|]. apply Hfresh in Hk. set_solver.
Qed.

(** X9: No two items that a run hands on have the same url. *)
Theorem survivors_unique items :
  NoDup (map url_key (accepted (run_fresh items))).
Proof. apply accepted_keys_fresh. Qed.

Lemma accepted_sublist seen items : sublist (accepted (run seen items)) items.
Proof.
  revert seen. induction items as [|item items IH]; intros seen; [constructor|].
  rewrite run_cons. destruct (decide (url_key item ∈ seen)) as [Hin | Hin].
  - rewrite process_item_seen by done. simpl. by apply sublist_cons.
  - rewrite process_item_new by done. simpl. by apply sublist_skip.
Qed.

Lemma accepted_cover seen items item :
  item ∈ items ->
  url_key item ∈ seen \/
  exists item', item' ∈ accepted (run seen items) /\ url_key item' = url_key item.
Proof.
  revert seen. induction items as [|x items IH]; intros seen Hin.
  - by apply elem_of_nil in Hin.
  - rewrite run_cons. destruct (decide (url_key x ∈ seen)) as [Hx | Hx].
    + rewrite process_item_seen by done. simpl.
      apply elem_of_cons in Hin as [-> | Hin]; [by left|]. by apply IH.
    + rewrite process_item_new by done. simpl.
      apply elem_of_cons in Hin as [-> | Hin].
      * right. exists x. split; [by left | done].
      * destruct (IH (seen ∪ {[url_key x]}) Hin) as [Hs | (item' & Hi & Hk)].
        -- apply elem_of_union in Hs as [Hs | Hs]; [by left|].
           right. exists x. split; [by left|]. set_solver.
        -- right. exists item'. split; [by right | done].
Qed.

(** X10: A run hands on a selection of its input, in the order of arrival, that
    holds an item for every url of the input. *)
Theorem survivors_cover items :
  sublist (accepted (run_fresh items)) items /\
  forall item, item ∈ items ->
    exists item', item' ∈ accepted (run_fresh items) /\ url_key item' = url_key item.
Proof.
  split; [apply accepted_sublist|]. intros item Hin.
  destruct (accepted_cover ∅ items item Hin) as [Hs | H]; [set_solver | done].
Qed.

Lemma run_all_new seen items :
  NoDup (map url_key items) -> (forall k, k ∈ map url_key items -> k ∉ seen) ->
  run seen items = map Accepted items.
Proof.
  revert seen. induction items as [|item items IH]; intros seen Hnd Hfresh; [done|].
  rewrite run_cons. simpl in Hnd. apply NoDup_cons in Hnd as [Hhd Hnd].
  rewrite process_item_new by (apply Hfresh; simpl; by left). simpl. f_equal.
  apply IH; [done|]. intros k Hk. specialize (Hfresh k).
  assert (k ≠ url_key item) by (intros ->; done).
  simpl in Hfresh. set_solver.
Qed.

(** The items a run hands on all pass a new pipeline object: a second
    deduplication of the output drops nothing. *)
Theorem second_pass_accepts_all items :
  run_fresh (accepted (run_fresh items)) = map Accepted (accepted (run_fresh items)).
Proof.
  unfold run_fresh. destruct (accepted_keys_fresh ∅ items) as [Hnd Hfresh].
  apply run_all_new; [done|]. intros k _. set_solver.
Qed.

Lemma seen_after_spec seen items :
  seen_after seen items = seen ∪ list_to_set (map url_key items).
Proof.
  revert seen. induction items as [|item items IH]; intros seen; simpl.
  - set_solver.
  - rewrite IH. unfold process_item. fold (url_key item).
    case_decide; simpl; set_solver.
Qed.

Lemma run_all_seen seen items :
  (forall item, item ∈ items -> url_key item ∈ seen) ->
  run seen items = map dropped_as_duplicate items /\ seen_after seen items = seen.
Proof.
  induction items as [|item items IH]; intros Hseen; [done|].
  rewrite run_cons. simpl.
  rewrite process_item_seen by (apply Hseen; by left). simpl.
  destruct IH as [-> ->]; [|done]. intros x Hx. apply Hseen. by right.
Qed.

(** X11: [seen_urls] holds, after a run, what it held before and the url of
    every item of the run; the same items sent again to the same pipeline
    object are all dropped as duplicates, and leave [seen_urls] as it is. *)
Theorem second_run_drops_all seen items :
  seen_after seen items = seen ∪ list_to_set (map url_key items) /\
  run (seen_after seen items) items = map dropped_as_duplicate items /\
  seen_after (seen_after seen items) items = seen_after seen items.
Proof.
  split; [apply seen_after_spec|].
  apply run_all_seen. intros item Hin. rewrite seen_after_spec.
  apply elem_of_union_r, elem_of_list_to_set, list_elem_of_fmap_2, Hin.
Qed.

End Survivors.

(** ** Enrichment: what changes and what stays *)

Section EnrichmentFrame.

Import Py DataEnrichmentPipeline.

Implicit Types (item : gmap string pyval).

Lemma standardize_lookup_ne field field' item :
  field ≠ field' -> standardize field item !! field' = item !! field'.
Proof.
  intros Hne. unfold standardize. case_decide; [|done].
  by rewrite lookup_insert_ne.
Qed.

Lemma standardize_get field item :
  get field (standardize field item) =
  if decide (get field item = PNone) then PNone else PBool (truthy (get field item)).
Proof.
  unfold standardize. destruct (decide (get field item = PNone)) as [Hn | Hn].
  - rewrite decide_False by (intros H; done). done.
  - rewrite decide_True by done. unfold get at 1. by rewrite lookup_insert_eq.
Qed.

Lemma standardize_dom field item : dom (standardize field item) = dom item.
Proof.
  unfold standardize. case_decide as Hne; [|done].
  rewrite dom_insert_L.
  assert (field ∈ dom item); [|set_solver].
  apply elem_of_dom. unfold get in Hne. destruct (item !! field); [done|].
  by destruct Hne.
Qed.

(** X12: The enricher leaves every field but [has_elevator], [has_balcony] and
    [scraped_at] as it finds it, and takes no field away: the only field it
    can add is [scraped_at]. *)
Theorem enricher_frame now item :
  (forall field, field ≠ "has_elevator" -> field ≠ "has_balcony" ->
                 field ≠ "scraped_at" ->
                 process_item now item !! field = item !! field) /\
  dom item ⊆ dom (process_item now item) /\
  dom (process_item now item) ⊆ dom item ∪ {["scraped_at"]}.
Proof.
  unfold process_item. simpl.
  set (item' := standardize "has_balcony" (standardize "has_elevator" item)).
  assert (Hdom : dom item' = dom item).
  { unfold item'. by rewrite !standardize_dom. }
  assert (Hother : forall field, field ≠ "has_elevator" -> field ≠ "has_balcony" ->
                                 item' !! field = item !! field).
  { intros field He Hb. unfold item'. by rewrite !standardize_lookup_ne. }
  destruct (negb (truthy (get "scraped_at" item'))).
  - split; [|split].
    + intros field He Hb Hs. rewrite lookup_insert_ne by done. by apply Hother.
    + rewrite dom_insert_L, Hdom. set_solver.
    + rewrite dom_insert_L, Hdom. set_solver.
  - split; [|split].
    + intros field He Hb _. by apply Hother.
    + by rewrite Hdom.
    + rewrite Hdom. set_solver.
Qed.

(** X13: What the enricher leaves in the three fields it looks at: an amenity
    field that is unset or [None] stays so, and one that holds a value holds
    the truth value of it afterwards; [scraped_at] keeps a value that counts
    as true and is set to the reading of the clock otherwise. *)
Theorem enricher_fields now item :
  (get "has_elevator" (process_item now item) =
     if decide (get "has_elevator" item = PNone) then PNone
     else PBool (truthy (get "has_elevator" item))) /\
  (get "has_balcony" (process_item now item) =
     if decide (get "has_balcony" item = PNone) then PNone
     else PBool (truthy (get "has_balcony" item))) /\
  (get "scraped_at" (process_item now item) =
     if truthy (get "scraped_at" item) then get "scraped_at" item else PStr now).
Proof.
  unfold process_item. simpl.
  set (item' := standardize "has_balcony" (standardize "has_elevator" item)).
  assert (He : get "has_elevator" item' =
               if decide (get "has_elevator" item = PNone) then PNone
               else PBool (truthy (get "has_elevator" item))).
  { unfold item'. rewrite standardize_get_ne by done. apply standardize_get. }
  assert (Hb : get "has_balcony" item' =
               if decide (get "has_balcony" item = PNone) then PNone
               else PBool (truthy (get "has_balcony" item))).
  { unfold item'. rewrite standardize_get.
    by rewrite (standardize_get_ne "has_elevator" "has_balcony"). }
  assert (Hs : get "scraped_at" item' = get "scraped_at" item).
  { unfold item'. by rewrite !standardize_get_ne. }
  rewrite Hs. destruct (truthy (get "scraped_at" item)); simpl.
  - by rewrite He, Hb, Hs.
  - split; [|split].
    + rewrite <- He. unfold get. by rewrite lookup_insert_ne.
    + rewrite <- Hb. unfold get. by rewrite lookup_insert_ne.
    + unfold get. by rewrite lookup_insert_eq.
Qed.

End EnrichmentFrame.

(** ** Statistics *)

Section Statistics.

Import Py StatisticsPipeline.
Local Open Scope Z_scope.

Implicit Types (item : gmap string pyval) (items : list (gmap string pyval)).
Implicit Types (stats : Stats) (ps : list Z).

Lemma run_snoc stats items item :
  run stats (items ++ [item]) = process_item (run stats items) item.
Proof. unfold run. by rewrite foldl_app. Qed.

Lemma tally_count_snoc {A} (f : A -> bool) (l : list A) x :
  DuplicatesPipeline.count f (l ++ [x]) = (DuplicatesPipeline.count f l + (if f x then 1 else 0))%nat.
Proof. induction l as [|y l IH]; simpl; [lia|]. rewrite IH. lia. Qed.

Lemma count_up_lookup `{Countable K} (key k : K) (d : gmap K Z) :
  count_up key d !! k =
  if decide (key = k) then Some (default 0 (d !! k) + 1) else d !! k.
Proof.
  unfold count_up. case_decide as Hk.
  - subst. by rewrite lookup_insert_eq.
  - by rewrite lookup_insert_ne.
Qed.

Lemma tally_step `{Countable K} (key k : K) (d : gmap K Z) (n : nat) (hit : bool) :
  d !! k = tally n -> hit = bool_decide (key = k) ->
  (if hit then count_up key d else d) !! k = tally (n + (if hit then 1 else 0)).
Proof.
  intros Hd ->. case_bool_decide as Hk.
  - rewrite count_up_lookup, decide_True by done. rewrite Hd. unfold tally.
    case_decide; case_decide; try lia; simpl; f_equal; lia.
  - by rewrite Nat.add_0_r.
Qed.

Lemma process_item_total stats item :
  total_items (process_item stats item) = total_items stats + 1.
Proof. unfold process_item. by destruct (counted_price item). Qed.

Lemma process_item_by_source stats item :
  items_by_source (process_item stats item) =
  count_up (hash_key (source_of item)) (items_by_source stats).
Proof. unfold process_item. by destruct (counted_price item). Qed.

Lemma process_item_rooms stats item :
  rooms_distribution (process_item stats item) =
  if truthy (get "rooms" item) then
    count_up (str (get "rooms" item)) (rooms_distribution stats)
  else rooms_distribution stats.
Proof. unfold process_item. by destruct (counted_price item). Qed.

(** X15: From a new pipeline object on, [total_items] is the number of items
    that came by, [items_by_source] holds for every source the number of
    items that carry it (and no entry for a source that no item carries), and
    [rooms_distribution] does the same for the texts of the room counts. *)
Theorem tallies items :
  total_items (run initial items) = Z.of_nat (length items) /\
  (forall k, items_by_source (run initial items) !! k = tally (DuplicatesPipeline.count (from_source k) items)) /\
  (forall r, rooms_distribution (run initial items) !! r = tally (DuplicatesPipeline.count (with_rooms r) items)).
Proof.
  induction items as [|item items (Htotal & Hsource & Hrooms)] using rev_ind.
  - done.
  - rewrite run_snoc, length_app. split; [|split].
    + rewrite process_item_total, Htotal. simpl. lia.
    + intros k. rewrite process_item_by_source, tally_count_snoc.
      pose proof (tally_step (hash_key (source_of item)) k _ _ (from_source k item)
                    (Hsource k) eq_refl) as Hstep.
      unfold from_source in *. case_bool_decide as Hk.
      * done.
      * rewrite count_up_lookup, decide_False by done. done.
    + intros r. rewrite process_item_rooms, tally_count_snoc. unfold with_rooms at 2.
      destruct (truthy (get "rooms" item)); simpl.
      * pose proof (tally_step (str (get "rooms" item)) r _ _
                      (bool_decide (str (get "rooms" item) = r)) (Hrooms r) eq_refl) as Hstep.
        case_bool_decide as Hr; [done|].
        rewrite count_up_lookup, decide_False by done. done.
      * rewrite Nat.add_0_r. apply Hrooms.
Qed.

Lemma counted_prices_cons item items :
  counted_prices (item :: items) =
  match counted_price item with
  | Some price => price :: counted_prices items
  | None => counted_prices items
  end.
Proof. reflexivity. Qed.

Lemma run_prices stats items :
  price_count (run stats items) = price_count stats + Z.of_nat (length (counted_prices items)) /\
  price_total (run stats items) = price_total stats + sum_list (counted_prices items) /\
  price_max (run stats items) = foldl max_price (price_max stats) (counted_prices items) /\
  price_min (run stats items) = foldl min_price (price_min stats) (counted_prices items).
Proof.
  revert stats. induction items as [|item items IH]; intros stats.
  - simpl. repeat split; lia.
  - change (run stats (item :: items)) with (run (process_item stats item) items).
    destruct (IH (process_item stats item)) as (Hc & Ht & Hmax & Hmin).
    rewrite Hc, Ht, Hmax, Hmin, counted_prices_cons. unfold process_item.
    destruct (counted_price item) as [price|]; simpl; repeat split; try done; lia.
Qed.

Lemma foldl_max_price m ps :
  m <= foldl max_price m ps /\
  (forall p, p ∈ ps -> p <= foldl max_price m ps) /\
  (foldl max_price m ps = m \/ foldl max_price m ps ∈ ps).
Proof.
  revert m. induction ps as [|x ps IH]; intros m; simpl.
  - split; [lia|]. split; [|by left]. intros p Hp. by apply elem_of_nil in Hp.
  - destruct (IH (max_price m x)) as (Hge & Hall & Hin).
    assert (Hm : m <= max_price m x /\ x <= max_price m x /\
                 (max_price m x = m \/ max_price m x = x)).
    { unfold max_price. destruct (Z.ltb_spec m x); lia. }
    destruct Hm as (Hm1 & Hm2 & Hm3). split; [lia|]. split.
    + intros p [-> | Hp]%elem_of_cons; [lia | by apply Hall].
    + destruct Hin as [-> | Hin].
      * destruct Hm3 as [-> | ->]; [by left | right; by left].
      * right. by right.
Qed.

Lemma foldl_min_price cur ps :
  match foldl min_price cur ps with
  | None => cur = None /\ ps = []
  | Some r =>
      (forall p, p ∈ ps -> r <= p) /\ (forall m, cur = Some m -> r <= m) /\
      (cur = Some r \/ r ∈ ps)
  end.
Proof.
  revert cur. induction ps as [|x ps IH]; intros cur; simpl.
  - destruct cur as [m|]; [|done]. split; [|split].
    + intros p Hp. by apply elem_of_nil in Hp.
    + by intros ? [= ->].
    + by left.
  - specialize (IH (min_price cur x)).
    destruct (foldl min_price (min_price cur x) ps) as [r|]; [|by destruct cur, IH].
    destruct IH as (Hall & Hcur & Hin).
    assert (Hx : r <= x /\ (forall m, cur = Some m -> r <= m)).
    { destruct cur as [m|]; simpl in *.
      - specialize (Hcur _ eq_refl). destruct (Z.ltb_spec x m).
        + split; [lia|]. intros ? [= <-]. lia.
        + split; [lia|]. intros ? [= <-]. lia.
      - specialize (Hcur _ eq_refl). split; [lia | done]. }
    destruct Hx as [Hx Hm]. split; [|split].
    + intros p [-> | Hp]%elem_of_cons; [done | by apply Hall].
    + done.
    + destruct Hin as [Hin | Hin]; [|right; by right].
      destruct cur as [m|]; simpl in Hin; injection Hin as Hin.
      * destruct (Z.ltb_spec x m); subst; [right; by left | by left].
      * subst. right. by left.
Qed.

(** X16: From a new pipeline object on, [count] and [total] are the number and
    the sum of the prices that could be read; [max] is the largest of them
    and of 0, the value it starts with; [min] is the smallest of them, and
    stays infinite as long as there is none. *)
Theorem price_statistics items :
  let stats := run initial items in
  let ps := counted_prices items in
  price_count stats = Z.of_nat (length ps) /\
  price_total stats = sum_list ps /\
  0 <= price_max stats /\ (forall p, p ∈ ps -> p <= price_max stats) /\
  (price_max stats = 0 \/ price_max stats ∈ ps) /\
  (ps = [] -> price_min stats = None) /\
  (ps <> [] -> exists m, price_min stats = Some m /\ m ∈ ps /\ forall p, p ∈ ps -> m <= p).
Proof.
  intros stats ps. subst stats ps.
  destruct (run_prices initial items) as (-> & -> & -> & ->). simpl.
  destruct (foldl_max_price 0 (counted_prices items)) as (Hge & Hall & Hin).
  pose proof (foldl_min_price None (counted_prices items)) as Hmin.
  repeat split; try done.
  - intros ->. done.
  - intros Hne. destruct (foldl min_price None (counted_prices items)) as [r|].
    + destruct Hmin as (Hle & _ & [? | Hr]); [done|]. by exists r.
    + by destruct Hmin.
Qed.

Lemma sum_list_bounds lo hi ps :
  (forall p, p ∈ ps -> lo <= p <= hi) ->
  lo * Z.of_nat (length ps) <= sum_list ps <= hi * Z.of_nat (length ps).
Proof.
  induction ps as [|x ps IH]; intros Hall; simpl; [lia|].
  assert (lo <= x <= hi) by (apply Hall; by left).
  assert (lo * Z.of_nat (length ps) <= sum_list ps <= hi * Z.of_nat (length ps)).
  { apply IH. intros p Hp. apply Hall. by right. }
  lia.
Qed.

(** X17: The average that [close_spider] reports, [total / count], lies between
    the [min] and the [max] it reports. *)
Theorem average_between_extremes items m :
  price_min (run initial items) = Some m ->
  m * price_count (run initial items) <= price_total (run initial items)
    <= price_max (run initial items) * price_count (run initial items).
Proof.
  intros Hmin.
  destruct (run_prices initial items) as (Hc & Ht & Hmax & Hmin').
  rewrite Hc, Ht, Hmax. simpl. rewrite Hmin' in Hmin. simpl in Hmin.
  pose proof (foldl_min_price None (counted_prices items)) as Hm. rewrite Hmin in Hm.
  destruct Hm as (Hle & _ & _).
  destruct (foldl_max_price 0 (counted_prices items)) as (_ & Hall & _).
  apply sum_list_bounds. intros p Hp. split; [by apply Hle | by apply Hall].
Qed.

Lemma average_between_extremes_witness :
  2500000 * price_count (run initial [Samples.priced (PInt 3000000);
                                      Samples.priced (PStr "2 500 000")])
  <= price_total (run initial [Samples.priced (PInt 3000000);
                               Samples.priced (PStr "2 500 000")]).
Proof.
  apply (average_between_extremes
           [Samples.priced (PInt 3000000); Samples.priced (PStr "2 500 000")] 2500000).
  vm_compute. reflexivity.
Defined.

(** A price that [int] does not read, here for the separator 0x1f in front
    of it, is not counted. *)
Example separator_price_not_counted :
  counted_prices [Samples.priced (PStr (String (ascii_of_N 31) "5"));
                  Samples.priced (PStr " 5 ")] = [5].
Proof. vm_compute. reflexivity. Qed.

End Statistics.

(** ** Export and import of the table *)

Section Table.

Import Py CSVExportPipeline Frame.

Implicit Types (item : gmap string pyval).

Lemma writerow_cell item name :
  default "" (item_dict item !! name) = cell (get name item).
Proof.
  unfold item_dict, get. rewrite lookup_fmap. by destruct (item !! name).
Qed.

Lemma cell_text value :
  cell value =
  match value with
  | PNone => ""
  | PBool b => if b then "Yes" else "No"
  | PInt z => pretty z
  | PStr text => text
  end.
Proof. by destruct value. Qed.

(** X14: The row written for an item has one cell for each of the fourteen
    columns, in the order of [fieldnames], whatever fields the item has. The
    cell of a column is empty when the field of that name is not set or is
    [None], it is "Yes" or "No" when the field is a boolean, the decimal
    digits of an integer and the text of a string. A field that is no
    column leaves no trace in the row. *)
Theorem exported_row item :
  length (process_item item) = 14%nat /\
  (forall i name, fieldnames !! i = Some name ->
     process_item item !! i =
     Some match item !! name with
          | None => ""
          | Some PNone => ""
          | Some (PBool true) => "Yes"
          | Some (PBool false) => "No"
          | Some (PInt z) => pretty z
          | Some (PStr text) => text
          end) /\
  (forall field value, field ∉ fieldnames ->
                       process_item (<[field := value]> item) = process_item item).
Proof.
  split; [done|]. split.
  - intros i name Hi. unfold process_item, writerow.
    rewrite list_lookup_fmap, Hi. simpl. rewrite writerow_cell, cell_text.
    unfold get. by destruct (item !! name) as [[|[]| |]|].
  - intros field value Hnot. unfold process_item, writerow.
    apply map_ext_in. intros name Hname%list_elem_of_In.
    rewrite !writerow_cell. unfold get.
    rewrite lookup_insert_ne; [done|]. by intros ->.
Qed.

(** The flag that the export writes for a boolean is read back by
    [clean_data] as that boolean. *)
Theorem exported_flag_read_back (b : bool) :
  clean_bool (Some (PStr (cell (PBool b)))) = b.
Proof. by destruct b. Qed.

Lemma bool_map_true value :
  bool_map value = Some true <->
  value = PStr "Yes" \/ value = PStr "yes" \/ value = PBool true \/ value = PInt 1.
Proof.
  unfold bool_map. destruct value as [|[]|z|s]; simpl.
  - split; [done | intros [?|[?|[?|?]]]; done].
  - split; [auto | done].
  - split; [done | intros [?|[?|[?|?]]]; done].
  - destruct (Z.eqb_spec z 1) as [-> | Hz].
    + split; [auto | done].
    + split.
      * by destruct (z =? 0)%Z.
      * intros [?|[?|[?|[= ->]]]]; done.
  - case_bool_decide as Hy.
    + split; [|done]. intros _. destruct Hy as [-> | ->]; auto.
    + split.
      * by case_bool_decide.
      * intros [[= ->]|[[= ->]|[?|?]]]; try done; destruct Hy; auto.
Qed.

(** X18: [clean_data] reads a cell of an amenity column as true only when it is
    one of "Yes", "yes", [True] and 1; every other text, a number other than
    1 and a missing value all become false. *)
Theorem clean_bool_true cell :
  clean_bool cell = true <->
  exists value, cell = Some value /\
    (value = PStr "Yes" \/ value = PStr "yes" \/ value = PBool true \/ value = PInt 1).
Proof.
  unfold clean_bool. destruct cell as [value|].
  - split.
    + intros Hc. exists value. split; [done|]. apply bool_map_true.
      by destruct (bool_map value) as [[]|].
    + intros (v & [= <-] & Hv). apply bool_map_true in Hv. by rewrite Hv.
  - split; [done | by intros (? & ? & _)].
Qed.

Lemma cols_NoDup : NoDup cols.
Proof. by apply (bool_decide_unpack _). Qed.

(** X19: [export_results] fails with a [KeyError] exactly when the frame lacks
    one of the eight leading columns; otherwise, for a frame whose column
    names differ from one another, the file has the eight columns in front
    and every column of the frame once. *)
Theorem export_columns_order columns :
  NoDup columns ->
  (export_columns columns = None <-> exists col, col ∈ cols /\ col ∉ columns) /\
  (forall out, export_columns columns = Some out ->
     take 8%nat out = cols /\ out ≡ₚ columns /\ NoDup out).
Proof.
  intros Hnd. unfold export_columns. case_decide as Hall.
  - split.
    + split; [done|]. intros (col & Hin & Hnot).
      rewrite Forall_forall in Hall. destruct Hnot. by apply Hall.
    + intros out [= <-].
      assert (Hout : NoDup (cols ++ filter (fun col => col ∉ cols) columns)).
      { apply NoDup_app. split; [apply cols_NoDup|]. split.
        - intros col Hc [Hf _]%list_elem_of_filter. done.
        - by apply NoDup_filter. }
      split; [done|]. split; [|done].
      apply NoDup_Permutation; [done | done|].
      intros col.
      change (col ∈ cols ++ filter (fun col => col ∉ cols) columns <-> col ∈ columns).
      rewrite elem_of_app, list_elem_of_filter.
      rewrite Forall_forall in Hall. split.
      * intros [Hc | [_ Hc]]; [by apply Hall | done].
      * intros Hc. destruct (decide (col ∈ cols)); [by left | by right].
  - split; [|done]. split; [|done]. intros _.
    apply not_Forall_Exists in Hall; [|intros col; apply _].
    apply Exists_exists in Hall as (col & Hin & Hnot). by exists col.
Qed.

(** The frame of the analysis of the test data: the fourteen columns of the
    export, with [score] and [rank]. *)
Lemma export_columns_order_witness :
  NoDup (CSVExportPipeline.fieldnames ++ ["score"; "rank"]) /\
  forall out, export_columns (CSVExportPipeline.fieldnames ++ ["score"; "rank"]) = Some out ->
              take 8%nat out = cols.
Proof.
  assert (Hnd : NoDup (CSVExportPipeline.fieldnames ++ ["score"; "rank"])).
  { by apply (bool_decide_unpack _). }
  split; [exact Hnd|]. intros out Hout.
  exact (proj1 (proj2 (export_columns_order _ Hnd) out Hout)).
Defined.

End Table.

(** ** The shape of the scores *)

Section ScoringShape.

Import Analyzer ScoreFacts.
Local Open Scope R_scope.

Implicit Types (w : ScoringWeights) (p : ScoringPreferences) (a : Apartment).

Lemma py_max_mono k x y : x <= y -> py_max k x <= py_max k y.
Proof. intros Hxy. unfold py_max. repeat case_decide; lra. Qed.

Lemma py_min_mono k x y : x <= y -> py_min k x <= py_min k y.
Proof. intros Hxy. unfold py_min. repeat case_decide; lra. Qed.

(** X20: A newer building never scores lower, whatever the two reference years,
    and no year scores below 0.1. *)
Theorem score_year_built_monotone p y1 y2 :
  y1 <= y2 ->
  exists s1 s2, score_year_built p (Some y1) = Ok s1 /\
                score_year_built p (Some y2) = Ok s2 /\ 0.1 <= s1 <= s2.
Proof.
  intros H12. simpl.
  set (lo := IZR (min_preferred_year p)). set (hi := IZR (preferred_year_threshold p)).
  assert (Hden : IZR (preferred_year_threshold p - min_preferred_year p) = hi - lo).
  { by rewrite minus_IZR. }
  rewrite Hden.
  destruct (decide (y1 >= hi)) as [H1|H1].
  { rewrite decide_True by lra. do 2 eexists. repeat split; lra. }
  destruct (decide (y1 >= lo)) as [H1'|H1'].
  - rewrite py_div_nonzero by lra. simpl.
    pose proof (py_max_ge_l 0.1 ((y1 - lo) / (hi - lo))) as Hge.
    assert (Hle : py_max 0.1 ((y1 - lo) / (hi - lo)) <= 1).
    { apply py_max_le; [lra|]. apply div_le_1; lra. }
    destruct (decide (y2 >= hi)).
    + do 2 eexists. repeat split; lra.
    + rewrite decide_True by lra. rewrite py_div_nonzero by lra. simpl.
      do 2 eexists. repeat split; [lra|].
      apply py_max_mono, div_le_compat; lra.
  - destruct (decide (y2 >= hi)); [do 2 eexists; repeat split; lra|].
    destruct (decide (y2 >= lo)).
    + rewrite py_div_nonzero by lra. simpl.
      do 2 eexists. repeat split; [lra|]. apply py_max_ge_l.
    + do 2 eexists. repeat split; lra.
Qed.

Lemma score_year_built_monotone_witness :
  exists s1 s2, score_year_built default_preferences (Some 1975) = Ok s1 /\
                score_year_built default_preferences (Some 2005) = Ok s2 /\ 0.1 <= s1 <= s2.
Proof. apply (score_year_built_monotone default_preferences 1975 2005). lra. Defined.

(** X21: With a room band [0 < min <= max], the room score rises up to the band
    and falls after it: of two room counts at or below the upper bound the
    larger never scores lower, of two at or above it the larger never scores
    higher. *)
Theorem score_rooms_unimodal p r1 r2 :
  0 < min_preferred_rooms p <= max_preferred_rooms p -> r1 <= r2 ->
  exists s1 s2, score_rooms p (Some r1) = Ok s1 /\ score_rooms p (Some r2) = Ok s2 /\
                (r2 <= max_preferred_rooms p -> s1 <= s2) /\
                (max_preferred_rooms p <= r1 -> 0.1 <= s2 <= s1).
Proof.
  intros [Hlo Hband] H12. simpl.
  set (lo := min_preferred_rooms p) in *. set (hi := max_preferred_rooms p) in *.
  assert (Hq : forall r, r < lo -> py_max 0.0 (r / lo) <= 1).
  { intros r Hr. apply py_max_le; [lra|]. apply div_le_1; lra. }
  assert (Hx : forall r, hi < r -> 0.1 <= py_max 0.1 (1.0 - 0.1 * (r - hi)) <= 1.0).
  { intros r Hr. split; [apply py_max_ge_l | apply py_max_le; lra]. }
  destruct (decide (lo <= r1 <= hi)) as [Hin1|Hout1].
  - destruct (decide (lo <= r2 <= hi)) as [Hin2|Hout2].
    + do 2 eexists. do 2 (split; [reflexivity|]). split; intros Hc; lra.
    + rewrite decide_False by lra.
      do 2 eexists. do 2 (split; [reflexivity|]). split; intros Hc; [lra|].
      apply Hx. lra.
  - destruct (decide (r1 < lo)) as [Hlt1|Hge1].
    + rewrite py_div_nonzero by lra. simpl.
      destruct (decide (lo <= r2 <= hi)) as [Hin2|Hout2].
      * do 2 eexists. do 2 (split; [reflexivity|]). split; intros Hc; [|lra].
        pose proof (Hq r1 Hlt1). lra.
      * destruct (decide (r2 < lo)) as [Hlt2|Hge2].
        -- rewrite py_div_nonzero by lra. simpl.
           do 2 eexists. do 2 (split; [reflexivity|]). split; intros Hc; [|lra].
           apply py_max_mono, div_le_compat; lra.
        -- do 2 eexists. do 2 (split; [reflexivity|]). split; intros Hc; lra.
    + rewrite decide_False by lra. rewrite decide_False by lra.
      do 2 eexists. do 2 (split; [reflexivity|]). split; intros Hc; [lra|].
      split; [apply py_max_ge_l|]. apply py_max_mono. lra.
Qed.

Lemma score_rooms_unimodal_witness :
  exists s1 s2, score_rooms default_preferences (Some 5) = Ok s1 /\
                score_rooms default_preferences (Some 7) = Ok s2 /\ 0.1 <= s2 <= s1.
Proof.
  destruct (score_rooms_unimodal default_preferences 5 7) as (s1 & s2 & H1 & H2 & _ & Hdown).
  - simpl. lra.
  - lra.
  - exists s1, s2. repeat split; [exact H1 | exact H2 | apply Hdown; simpl; lra..].
Defined.


(** *** The final score *)

Lemma calculate_apartment_score_Ok w p a s :
  calculate_apartment_score w p a = Ok s ->
  exists s1 s2 s3 s4 s5,
    score_price p (price a) = Ok s1 /\ score_fee p (fee a) = Ok s2 /\
    score_price_per_m2 p (price_per_m2 a) = Ok s3 /\ score_rooms p (rooms a) = Ok s4 /\
    score_year_built p (year_built a) = Ok s5 /\
    s = py_min 1.0 (weighted_sum w p a s1 s2 s3 s4 s5).
Proof.
  unfold calculate_apartment_score.
  destruct (score_price p (price a)) as [s1|]; simpl; [|discriminate].
  destruct (score_fee p (fee a)) as [s2|]; simpl; [|discriminate].
  destruct (score_price_per_m2 p (price_per_m2 a)) as [s3|]; simpl; [|discriminate].
  destruct (score_rooms p (rooms a)) as [s4|]; simpl; [|discriminate].
  destruct (score_year_built p (year_built a)) as [s5|]; simpl; [|discriminate].
  intros [= <-]. exists s1, s2, s3, s4, s5. do 5 (split; [reflexivity|]).
  f_equal. unfold weighted_sum, bonus.
  destruct (has_elevator a), (has_balcony a); lra.
Qed.

Lemma calculate_apartment_score_sum w p a s1 s2 s3 s4 s5 :
  score_price p (price a) = Ok s1 -> score_fee p (fee a) = Ok s2 ->
  score_price_per_m2 p (price_per_m2 a) = Ok s3 -> score_rooms p (rooms a) = Ok s4 ->
  score_year_built p (year_built a) = Ok s5 ->
  calculate_apartment_score w p a = Ok (py_min 1.0 (weighted_sum w p a s1 s2 s3 s4 s5)).
Proof.
  intros H1 H2 H3 H4 H5. unfold calculate_apartment_score.
  rewrite H1, H2, H3, H4, H5. simpl. f_equal. f_equal.
  unfold weighted_sum, bonus.
  destruct (has_elevator a), (has_balcony a); lra.
Qed.

(** X24: An elevator or a balcony never lowers the final score when their weights
    are not negative: the listing without them scores at most what it scores
    with any of them. *)
Theorem amenities_never_lower w p a elevator balcony s0 :
  0 <= elevator_weight w -> 0 <= balcony_weight w ->
  calculate_apartment_score w p (set_amenities false false a) = Ok s0 ->
  exists s, calculate_apartment_score w p (set_amenities elevator balcony a) = Ok s /\
            s0 <= s.
Proof.
  intros He Hb Hs0.
  apply calculate_apartment_score_Ok in Hs0
    as (s1 & s2 & s3 & s4 & s5 & H1 & H2 & H3 & H4 & H5 & ->).
  eexists. split.
  - apply (calculate_apartment_score_sum w p (set_amenities elevator balcony a)
             s1 s2 s3 s4 s5); assumption.
  - apply py_min_mono. unfold weighted_sum, bonus. simpl.
    destruct elevator, balcony; lra.
Qed.

Lemma amenities_never_lower_witness :
  exists s, calculate_apartment_score default_weights default_preferences
              (set_amenities true true (only_price 3000000)) = Ok s /\
            py_min 1.0 (weighted_sum default_weights default_preferences
                          (only_price 3000000)
                          (py_max 0.0 (py_min 1.0
                             (1.0 - (3000000 - 1000000) / IZR (4000000 - 1000000))))
                          0.5 0.5 0.5 0.5) <= s.
Proof.
  apply (amenities_never_lower default_weights default_preferences (only_price 3000000)
           true true).
  - simpl. lra.
  - simpl. lra.
  - apply (calculate_apartment_score_sum default_weights default_preferences
             (set_amenities false false (only_price 3000000))); try reflexivity.
    simpl. rewrite decide_True by lra.
    rewrite py_div_nonzero by (rewrite minus_IZR; lra). reflexivity.
Defined.

(** X25: When the weights are not negative and add up to at most 1, and the
    ceilings and the lower room bound are positive, the cap of
    [calculate_apartment_score] changes nothing: the final score is the
    weighted sum of the sub-scores and the bonuses. *)
Theorem cap_leaves_weighted_sum w p a s :
  nonneg_weights w -> weights_total w <= 1 -> positive_ceilings p ->
  calculate_apartment_score w p a = Ok s ->
  exists s1 s2 s3 s4 s5,
    score_price p (price a) = Ok s1 /\ score_fee p (fee a) = Ok s2 /\
    score_price_per_m2 p (price_per_m2 a) = Ok s3 /\ score_rooms p (rooms a) = Ok s4 /\
    score_year_built p (year_built a) = Ok s5 /\
    s = weighted_sum w p a s1 s2 s3 s4 s5.
Proof.
  intros (Hp & Hf & Hm & Hr & Hy & He & Hb & Hfl) Htotal (Cp & Cf & Cm & Cr) Hs.
  apply calculate_apartment_score_Ok in Hs
    as (s1 & s2 & s3 & s4 & s5 & H1 & H2 & H3 & H4 & H5 & ->).
  exists s1, s2, s3, s4, s5. do 5 (split; [assumption|]).
  apply score_price_unit in H1; [|assumption]. apply score_fee_unit in H2; [|assumption].
  apply score_price_per_m2_unit in H3; [|assumption].
  apply score_rooms_unit in H4; [|assumption]. apply score_year_built_unit in H5.
  pose proof (score_floor_unit p (floor a) (total_floors a)) as H6.
  assert (Hsum : weighted_sum w p a s1 s2 s3 s4 s5 <= weights_total w).
  { unfold weighted_sum, weights_total, bonus.
    destruct (has_elevator a), (has_balcony a); nra. }
  unfold py_min. case_decide; lra.
Qed.

Lemma default_weights_total : weights_total default_weights = 1.
Proof. unfold weights_total; simpl. lra. Qed.

(** The default configuration, whose weights add up to 1, and a listing of
    3,000,000 SEK. *)
Lemma cap_leaves_weighted_sum_witness :
  weights_total default_weights <= 1 /\
  exists s1 s2 s3 s4 s5,
    score_price default_preferences (Some 3000000) = Ok s1 /\
    score_fee default_preferences None = Ok s2 /\
    score_price_per_m2 default_preferences None = Ok s3 /\
    score_rooms default_preferences None = Ok s4 /\
    score_year_built default_preferences None = Ok s5 /\
    py_min 1.0 (weighted_sum default_weights default_preferences (only_price 3000000)
                  (py_max 0.0 (py_min 1.0
                     (1.0 - (3000000 - 1000000) / IZR (4000000 - 1000000))))
                  0.5 0.5 0.5 0.5)
    = weighted_sum default_weights default_preferences (only_price 3000000)
        s1 s2 s3 s4 s5.
Proof.
  assert (Htotal : weights_total default_weights <= 1).
  { rewrite default_weights_total. lra. }
  split; [exact Htotal|].
  apply (cap_leaves_weighted_sum default_weights default_preferences (only_price 3000000) _
           default_weights_nonneg Htotal default_preferences_positive).
  apply (calculate_apartment_score_sum default_weights default_preferences
           (only_price 3000000)); try reflexivity.
  simpl. rewrite decide_True by lra.
  rewrite py_div_nonzero by (rewrite minus_IZR; lra). reflexivity.
Defined.

(** *** The three "lower is better" scores *)

Lemma clamp_one q : q <= 0 -> py_max 0.0 (py_min 1.0 (1.0 - q)) = 1.
Proof. intros Hq. unfold py_max, py_min. repeat case_decide; lra. Qed.

Lemma clamp_zero : py_max 0.0 (py_min 1.0 (1.0 - 1)) = 0.
Proof. unfold py_max, py_min. repeat case_decide; lra. Qed.

Lemma div_nonpos x d : 0 < d -> x <= 0 -> x / d <= 0.
Proof.
  intros Hd Hx. pose proof (Rinv_0_lt_compat d Hd). unfold Rdiv. nra.
Qed.

Lemma div_self d : d <> 0 -> d / d = 1.
Proof. intros Hd. unfold Rdiv. by rewrite Rinv_r. Qed.

(** X22: With the reference points in order, each of the price, fee and
    price-per-m2 scores is 1 at and below the lower reference point and 0 at
    the ceiling. *)
Theorem reference_points_score p :
  ordered_reference_points p ->
  (forall v, v <= IZR (min_acceptable_price p) -> score_price p (Some v) = Ok 1) /\
  score_price p (Some (IZR (max_preferred_price p))) = Ok 0 /\
  (forall v, v <= IZR (min_acceptable_fee p) -> score_fee p (Some v) = Ok 1) /\
  score_fee p (Some (IZR (max_preferred_fee p))) = Ok 0 /\
  (forall v, v <= IZR (min_acceptable_price_per_m2 p) ->
             score_price_per_m2 p (Some v) = Ok 1) /\
  score_price_per_m2 p (Some (IZR (max_preferred_price_per_m2 p))) = Ok 0.
Proof.
  intros ((Hp & _) & (Hf & _) & (Hm & _)).
  apply IZR_lt in Hp, Hf, Hm.
  repeat match goal with |- _ /\ _ => split end; try intros v Hv; simpl.
  all: rewrite decide_True by lra.
  all: rewrite minus_IZR, py_div_nonzero by lra; simpl; f_equal.
  all: first [ apply clamp_one, div_nonpos; lra
             | rewrite div_self by lra; apply clamp_zero ].
Qed.

Lemma default_preferences_ordered : ordered_reference_points default_preferences.
Proof. unfold ordered_reference_points; simpl. lia. Qed.

Lemma reference_points_score_witness :
  score_price default_preferences (Some 800000) = Ok 1 /\
  score_fee default_preferences (Some (IZR (max_preferred_fee default_preferences))) = Ok 0.
Proof.
  pose proof (reference_points_score default_preferences default_preferences_ordered)
    as (Hlow & _ & _ & Hfee & _).
  split; [apply Hlow; simpl; lra | exact Hfee].
Defined.

(** X23: With the reference points in order, a lower price, fee or price per m2
    never scores lower than a higher one on the same side of the ceiling. *)
Theorem lower_is_better_on_each_side p v1 v2 :
  ordered_reference_points p -> v1 <= v2 ->
  (v2 <= IZR (max_preferred_price p) \/ IZR (max_preferred_price p) < v1 ->
   exists s1 s2, score_price p (Some v1) = Ok s1 /\ score_price p (Some v2) = Ok s2 /\
                 s2 <= s1) /\
  (v2 <= IZR (max_preferred_fee p) \/ IZR (max_preferred_fee p) < v1 ->
   exists s1 s2, score_fee p (Some v1) = Ok s1 /\ score_fee p (Some v2) = Ok s2 /\
                 s2 <= s1) /\
  (v2 <= IZR (max_preferred_price_per_m2 p) \/ IZR (max_preferred_price_per_m2 p) < v1 ->
   exists s1 s2, score_price_per_m2 p (Some v1) = Ok s1 /\
                 score_price_per_m2 p (Some v2) = Ok s2 /\ s2 <= s1).
Proof.
  intros ((Hp & Hp0) & (Hf & Hf0) & (Hm & Hm0)) H12.
  split; [|split]; intros [Hbelow | Habove].
  - by apply score_price_antitone_below_ceiling.
  - by apply score_price_antitone_above_ceiling.
  - by apply score_fee_antitone_below_ceiling.
  - by apply score_fee_antitone_above_ceiling.
  - by apply score_price_per_m2_antitone_below_ceiling.
  - by apply score_price_per_m2_antitone_above_ceiling.
Qed.

Lemma lower_is_better_on_each_side_witness :
  exists s1 s2, score_price default_preferences (Some 2000000) = Ok s1 /\
                score_price default_preferences (Some 3000000) = Ok s2 /\ s2 <= s1.
Proof.
  refine (proj1 (lower_is_better_on_each_side default_preferences 2000000 3000000
                   default_preferences_ordered _) _).
  - lra.
  - left. simpl. lra.
Defined.

End ScoringShape.

(** ** The analysed frame *)

Section Analysis.

Import Analyzer.
Local Open Scope R_scope.

Lemma score_ge_trans : Relations_1.Transitive score_ge.
Proof. intros x y z. unfold score_ge. lra. Qed.

Lemma sorted_lookup_ge l i j x y :
  Sorted score_ge l -> l !! i = Some x -> l !! j = Some y -> (i < j)%nat ->
  score x >= score y.
Proof.
  intros Hl%Sorted_StronglySorted; [|apply score_ge_trans].
  revert i j. induction Hl as [|z l Hl IH Hall]; intros i j; [discriminate|].
  destruct j as [|j]; [lia|]. destruct i as [|i]; simpl.
  - intros [= ->] Hy _. rewrite List.Forall_forall in Hall.
    apply Hall, list_elem_of_In. by eapply list_elem_of_lookup_2.
  - intros Hx Hy Hij. eapply IH; [eassumption..|lia].
Qed.

Lemma rank_lookup (out : list Ranked) n i r :
  map rank out = map Z.of_nat (seq 1 n) -> out !! i = Some r -> rank r = Z.of_nat (S i).
Proof.
  intros Hranks Hr.
  assert (Hi : map rank out !! i = Some (rank r)).
  { change (map rank out) with (rank <$> out). by rewrite list_lookup_fmap, Hr. }
  rewrite Hranks in Hi.
  change (map Z.of_nat (seq 1 n)) with (Z.of_nat <$> seq 1 n) in Hi.
  rewrite list_lookup_fmap in Hi.
  destruct (seq 1 n !! i) as [k|] eqn:Hk; [|discriminate].
  apply lookup_seq in Hk as [-> _]. simpl in Hi. congruence.
Qed.

(** X26: With preferences that keep the denominators away from zero and weights
    that are not negative, [analyze_apartments] returns a frame that holds
    the rows that went in, each with the score [calculate_apartment_score]
    gives it, and every score lies in [0,1]. *)
Theorem analysis_sound w p df :
  nonneg_weights w -> nondegenerate p ->
  exists out, analyze_apartments w p df = Ok out /\
    Permutation (map (fun r => row (scored r)) out) df /\
    Forall (fun r => calculate_apartment_score w p (row (scored r)) = Ok (score (scored r)) /\
                     0 <= score (scored r) <= 1) out.
Proof.
  intros Hw Hp. destruct (analyze_apartments_returns w p df Hp) as [out Hout].
  exists out. split; [exact Hout|]. by apply analyze_apartments_rows.
Qed.

Lemma analysis_sound_witness :
  exists out, analyze_apartments default_weights default_preferences
                [only_price 3000000; only_price 2000000] = Ok out /\
    Permutation (map (fun r => row (scored r)) out)
                [only_price 3000000; only_price 2000000] /\
    Forall (fun r => calculate_apartment_score default_weights default_preferences
                       (row (scored r)) = Ok (score (scored r)) /\
                     0 <= score (scored r) <= 1) out.
Proof.
  exact (analysis_sound default_weights default_preferences
           [only_price 3000000; only_price 2000000]
           default_weights_nonneg default_preferences_nondegenerate).
Defined.

(** X27: In the frame [analyze_apartments] returns, the row at position i has the
    rank i+1, and a row never scores lower than a row further down: the first
    row has the best score of the frame. *)
Theorem ranks_follow_scores w p df :
  nondegenerate p ->
  exists out, analyze_apartments w p df = Ok out /\ length out = length df /\
    (forall i r, out !! i = Some r -> rank r = Z.of_nat (S i)) /\
    (forall i j r1 r2, out !! i = Some r1 -> out !! j = Some r2 -> (i < j)%nat ->
                       score (scored r1) >= score (scored r2)).
Proof.
  intros Hp. destruct (analyze_apartments_returns w p df Hp) as [out Hout].
  exists out. split; [exact Hout|].
  destruct (analyze_apartments_ranked w p df out Hout) as [Hranks Hsorted].
  split; [|split].
  - rewrite <- (length_map rank out), Hranks, length_map. apply length_seq.
  - intros i r. by apply rank_lookup with (length df).
  - intros i j r1 r2 H1 H2 Hij.
    apply (sorted_lookup_ge (map scored out) i j); [exact Hsorted | | | exact Hij].
    + change (map scored out) with (scored <$> out). by rewrite list_lookup_fmap, H1.
    + change (map scored out) with (scored <$> out). by rewrite list_lookup_fmap, H2.
Qed.

Lemma ranks_follow_scores_witness :
  exists out, analyze_apartments default_weights default_preferences
                [only_price 3000000; only_price 2000000] = Ok out /\
              length out = 2%nat.
Proof.
  destruct (ranks_follow_scores default_weights default_preferences
              [only_price 3000000; only_price 2000000] default_preferences_nondegenerate)
    as (out & Hout & Hlen & _).
  exists out. split; [exact Hout | exact Hlen].
Defined.

End Analysis.

(** ** The options of the command line *)

Section CommandLine.

Import Analyzer Cli.
Local Open Scope R_scope.

Lemma opt_truthy_Some o z : opt_truthy o = true -> default 0%Z o = z -> o = Some z /\ z <> 0%Z.
Proof.
  destruct o as [z'|]; simpl; [|discriminate].
  intros Hz <-. split; [reflexivity|]. intros ->. discriminate.
Qed.

(** X28: The options of [analyze] leave preferences under which no scoring
    function divides by zero, except for [--max-price 1000000] and
    [--max-fee 2000], which put a ceiling on its lower reference point; an
    option given as 0 counts as not given. *)
Theorem preferences_nondegenerate args :
  (nondegenerate (preferences args) <->
   max_price args <> Some 1000000%Z /\ max_fee args <> Some 2000%Z) /\
  (max_price args = Some 0%Z -> max_preferred_price (preferences args) = 4000000%Z) /\
  (max_fee args = Some 0%Z -> max_preferred_fee (preferences args) = 5000%Z) /\
  (min_rooms args = Some 0 -> min_preferred_rooms (preferences args) = 2.0) /\
  (max_rooms args = Some 0 -> max_preferred_rooms (preferences args) = 4.0).
Proof.
  split; [|split; [|split; [|split]]].
  - unfold nondegenerate, preferences; simpl. split.
    + intros ((_ & Hp) & (_ & Hf) & _). split.
      * intros Heq. rewrite Heq in Hp. simpl in Hp. lia.
      * intros Heq. rewrite Heq in Hf. simpl in Hf. lia.
    + intros [Hp Hf].
      assert (Hrooms : (if float_truthy (min_rooms args) then default 0 (min_rooms args)
                        else 2.0) <> 0).
      { destruct (min_rooms args) as [r|]; simpl; [|lra].
        case_bool_decide; simpl; [lra | assumption]. }
      destruct (max_price args) as [zp|], (max_fee args) as [zf|]; simpl.
      all: repeat match goal with
           | |- context [(?z =? 0)%Z] => destruct (Z.eqb_spec z 0); simpl
           end.
      all: repeat split; try lia; try exact Hrooms; congruence.
  - intros Heq. unfold preferences. simpl. by rewrite Heq.
  - intros Heq. unfold preferences. simpl. by rewrite Heq.
  - intros Heq. unfold preferences. simpl. rewrite Heq. simpl.
    by rewrite bool_decide_eq_true_2.
  - intros Heq. unfold preferences. simpl. rewrite Heq. simpl.
    by rewrite bool_decide_eq_true_2.
Qed.

End CommandLine.

(** ** The texts the spiders read *)

Section SpiderTexts.

Import Py Items Spiders.

Implicit Types (s ds : string) (c : ascii).

Lemma split_not_nil sep s : split sep s <> [].
Proof.
  destruct s as [|c s]; simpl; [done|].
  destruct (Ascii.eqb c sep); [done|]. by destruct (split sep s).
Qed.

Lemma split_app sep s1 s2 :
  split sep (s1 +:+ String sep s2) = split sep s1 ++ split sep s2.
Proof.
  induction s1 as [|c s1 IH]; simpl.
  - by rewrite Ascii.eqb_refl.
  - destruct (Ascii.eqb c sep); [by rewrite IH|].
    rewrite IH. pose proof (split_not_nil sep s1).
    by destruct (split sep s1).
Qed.

Lemma split_absent sep s :
  all_chars (fun c => negb (Ascii.eqb c sep)) s = true -> split sep s = [s].
Proof.
  induction s as [|c s IH]; simpl; [done|].
  intros [Hc Hs]%andb_true_iff. apply negb_true_iff in Hc.
  by rewrite Hc, IH.
Qed.

Lemma rstrip_char_all c s :
  all_chars (fun c' => Ascii.eqb c' c) s = true -> rstrip_char c s = "".
Proof.
  induction s as [|c' s IH]; simpl; [done|].
  intros [Hc Hs]%andb_true_iff. by rewrite IH, Hc.
Qed.

Lemma rstrip_char_absent c s :
  all_chars (fun c' => negb (Ascii.eqb c' c)) s = true -> rstrip_char c s = s.
Proof.
  induction s as [|c' s IH]; simpl; [done|].
  intros [Hc Hs]%andb_true_iff. apply negb_true_iff in Hc.
  rewrite IH by done. rewrite Hc. by destruct s.
Qed.

Lemma rstrip_char_app c s1 s2 :
  rstrip_char c s2 <> "" -> rstrip_char c (s1 +:+ s2) = s1 +:+ rstrip_char c s2.
Proof.
  intros Hne. induction s1 as [|c' s1 IH]; [done|].
  change (String c' s1 +:+ s2) with (String c' (s1 +:+ s2)).
  change (String c' s1 +:+ rstrip_char c s2) with (String c' (s1 +:+ rstrip_char c s2)).
  cbn [rstrip_char]. rewrite IH.
  destruct (s1 +:+ rstrip_char c s2) eqn:Heq; [|done].
  destruct s1; simpl in Heq; [done | discriminate].
Qed.

Lemma rstrip_char_tail c s1 s2 :
  all_chars (fun c' => Ascii.eqb c' c) s2 = true ->
  rstrip_char c (s1 +:+ s2) = rstrip_char c s1.
Proof.
  intros Hs2. induction s1 as [|c' s1 IH]; simpl.
  - by apply rstrip_char_all.
  - by rewrite IH.
Qed.

Lemma digit_not_char c c' :
  is_digit c' = false -> is_digit c = true -> negb (Ascii.eqb c c') = true.
Proof.
  intros Hc' Hc. apply negb_true_iff, Ascii.eqb_neq. intros ->. congruence.
Qed.

Lemma isdigit_digits ds : all_chars is_digit ds = true -> ds <> "" -> isdigit ds = true.
Proof.
  intros Hds Hne. unfold isdigit. rewrite Hds.
  destruct ds; [done | reflexivity].
Qed.

(** X29: The id of a listing is the number that ends its URL: after a hyphen, and
    before any trailing slashes. An id, when there is one, is a string of
    digits; a URL with no digit has none. *)
Theorem extract_id_last_number url :
  (forall id, extract_id url = Some id -> id <> "" /\ all_chars is_digit id = true) /\
  (forall base ds slashes,
     url = base +:+ "-" +:+ ds +:+ slashes ->
     all_chars is_digit ds = true -> ds <> "" ->
     all_chars (fun c => Ascii.eqb c "/") slashes = true ->
     extract_id url = Some ds).
Proof.
  split.
  - intros id Hid. unfold extract_id in Hid. apply find_some in Hid as [_ Hid].
    unfold isdigit in Hid. apply andb_true_iff in Hid as [Hne Hall].
    split; [|done]. intros ->. done.
  - intros base ds slashes -> Hds Hne Hsl. unfold extract_id.
    assert (Hno : forall c', is_digit c' = false ->
              all_chars (fun c => negb (Ascii.eqb c c')) ds = true).
    { intros c' Hc'. eapply all_chars_impl; [|exact Hds].
      intros c Hc. by apply digit_not_char. }
    assert (Hds' : rstrip_char "/" (ds +:+ slashes) = ds).
    { rewrite rstrip_char_tail by done. by apply rstrip_char_absent, Hno. }
    assert (Htail : rstrip_char "/" (String "-" (ds +:+ slashes)) = String "-" ds).
    { cbn [rstrip_char]. rewrite Hds'. by destruct ds. }
    change (base +:+ "-" +:+ ds +:+ slashes) with (base +:+ String "-" (ds +:+ slashes)).
    rewrite rstrip_char_app by (by rewrite Htail).
    rewrite Htail, split_app, (split_absent "-" ds) by (by apply Hno).
    rewrite rev_app_distr. simpl. by rewrite isdigit_digits.
Qed.


(** The URL that the comment in [_extract_hemnet_id] gives. *)
Example extract_id_hemnet :
  extract_id "https://www.hemnet.se/bostad/lagenhet-3rum-sodermalm-stockholm-16012345"
  = Some "16012345".
Proof. reflexivity. Qed.

Lemma split_ws_word s :
  s <> "" -> all_chars (fun c => negb (is_space c)) s = true -> split_ws s = [s].
Proof.
  induction s as [|c s IH]; [done|]. intros _. simpl.
  intros [Hc Hs]%andb_true_iff. apply negb_true_iff in Hc. rewrite Hc.
  destruct s as [|c' s]; [done|].
  pose proof Hs as Hs'. simpl in Hs'. apply andb_true_iff in Hs' as [Hc' _].
  apply negb_true_iff in Hc'. rewrite Hc'. by rewrite IH.
Qed.

Lemma split_ws_cons s c rest :
  s <> "" -> all_chars (fun c => negb (is_space c)) s = true -> is_space c = true ->
  split_ws (s +:+ String c rest) = s :: split_ws rest.
Proof.
  intros Hne Hs Hsp. induction s as [|a s IH]; [done|]. clear Hne.
  simpl in Hs. apply andb_true_iff in Hs as [Ha Hs]. apply negb_true_iff in Ha.
  change (String a s +:+ String c rest) with (String a (s +:+ String c rest)).
  cbn [split_ws]. rewrite Ha.
  destruct s as [|b s].
  - simpl. by rewrite Hsp.
  - change (String b s +:+ String c rest) with (String b (s +:+ String c rest)) in *.
    pose proof Hs as Hs'. simpl in Hs'. apply andb_true_iff in Hs' as [Hb _].
    apply negb_true_iff in Hb. rewrite Hb. by rewrite IH.
Qed.

Lemma rstrip_app s1 s2 : rstrip s2 = s2 -> s2 <> "" -> rstrip (s1 +:+ s2) = s1 +:+ s2.
Proof.
  intros Hs2 Hne. induction s1 as [|c s1 IH]; [done|].
  change (String c s1 +:+ s2) with (String c (s1 +:+ s2)).
  rewrite rstrip_cons, IH. destruct (s1 +:+ s2) eqn:Heq; [|done].
  destruct s1; simpl in Heq; [done | discriminate].
Qed.

Lemma digits_no_space ds :
  all_chars is_digit ds = true -> all_chars (fun c => negb (is_space c)) ds = true.
Proof.
  apply all_chars_impl. intros c Hc. by rewrite (digit_not_space c Hc).
Qed.

Lemma strip_between ds1 mid ds2 :
  all_chars is_digit ds1 = true -> ds1 <> "" ->
  all_chars is_digit ds2 = true -> ds2 <> "" ->
  strip (ds1 +:+ mid +:+ ds2) = ds1 +:+ mid +:+ ds2.
Proof.
  intros H1 Hne1 H2 Hne2. unfold strip. rewrite lstrip_clean.
  - assert (Hmid : mid +:+ ds2 <> "") by (by destruct mid, ds2).
    rewrite rstrip_app; [done | | done].
    rewrite rstrip_app; [done | | done].
    by apply rstrip_no_space, digits_no_space.
  - destruct ds1 as [|c ds1]; [done|]. simpl in *.
    apply andb_true_iff in H1 as [Hc _]. by apply digit_not_space.
Qed.

Lemma replace_char_absent c by_ s :
  all_chars (fun c' => negb (Ascii.eqb c' c)) s = true -> replace_char c by_ s = s.
Proof.
  induction s as [|c' s IH]; simpl; [done|].
  intros [Hc Hs]%andb_true_iff. apply negb_true_iff in Hc. by rewrite Hc, IH.
Qed.

Lemma replace_char_app c by_ s1 s2 :
  replace_char c by_ (s1 +:+ s2) = replace_char c by_ s1 +:+ replace_char c by_ s2.
Proof.
  induction s1 as [|c' s1 IH]; [done|].
  change (String c' s1 +:+ s2) with (String c' (s1 +:+ s2)).
  cbn [replace_char]. rewrite IH. destruct (Ascii.eqb c' c); [|done].
  generalize (replace_char c by_ s1) (replace_char c by_ s2). clear.
  induction by_ as [|b by_ IH]; intros x y; [done|].
  change (String b by_ +:+ x +:+ y) with (String b (by_ +:+ x +:+ y)).
  change ((String b by_ +:+ x) +:+ y) with (String b ((by_ +:+ x) +:+ y)).
  by rewrite IH.
Qed.

Lemma parse_integer_digits ds post :
  all_chars is_digit ds = true -> ds <> "" -> no_digit_ahead post ->
  parse_integer (PStr (ds +:+ post)) = Some (digits_value 0 ds).
Proof.
  intros Hds Hne Hpost. rewrite parse_integer_str.
  pose proof (first_digit_run_app "" ds post eq_refl Hds Hne Hpost) as Hrun.
  change (first_digit_run (ds +:+ post) = Some ds) in Hrun.
  rewrite Hrun. by apply int_of_str_digits.
Qed.

Lemma floor_fields_av ds1 ds2 :
  all_chars is_digit ds1 = true -> ds1 <> "" ->
  all_chars is_digit ds2 = true -> ds2 <> "" ->
  floor_fields (split_ws (ds1 +:+ " av " +:+ ds2)) =
    (Some (digits_value 0 ds1), Some (digits_value 0 ds2)).
Proof.
  intros H1 Hne1 H2 Hne2.
  change (ds1 +:+ " av " +:+ ds2) with (ds1 +:+ String " " ("av" +:+ String " " ds2)).
  rewrite split_ws_cons by (done || by apply digits_no_space).
  rewrite (split_ws_cons "av") by done.
  rewrite split_ws_word by (done || by apply digits_no_space).
  unfold floor_fields. simpl.
  pose proof (parse_integer_digits ds1 "" H1 Hne1 I) as P1.
  pose proof (parse_integer_digits ds2 "" H2 Hne2 I) as P2.
  assert (Hnil : forall s, s +:+ "" = s).
  { induction s as [|c s IH]; [done|]. 
    change (String c s +:+ "") with (String c (s +:+ "")). by rewrite IH. }
  rewrite !Hnil in *. by rewrite P1, P2.
Qed.

(** X30: A floor text "f av t" of two numbers gives the floor f and the total t
    in both spiders. The text "f/t" gives the same in the Booli spider; the
    Hemnet spider reads its floor and no total. *)
Theorem floor_text ds1 ds2 :
  all_chars is_digit ds1 = true -> ds1 <> "" ->
  all_chars is_digit ds2 = true -> ds2 <> "" ->
  hemnet_floor (ds1 +:+ " av " +:+ ds2) =
    (Some (digits_value 0 ds1), Some (digits_value 0 ds2)) /\
  booli_floor (ds1 +:+ " av " +:+ ds2) =
    (Some (digits_value 0 ds1), Some (digits_value 0 ds2)) /\
  booli_floor (ds1 +:+ "/" +:+ ds2) =
    (Some (digits_value 0 ds1), Some (digits_value 0 ds2)) /\
  hemnet_floor (ds1 +:+ "/" +:+ ds2) = (Some (digits_value 0 ds1), None).
Proof.
  intros H1 Hne1 H2 Hne2.
  assert (Hno : forall ds, all_chars is_digit ds = true ->
            all_chars (fun c => negb (Ascii.eqb c "/")) ds = true).
  { intros ds Hds. eapply all_chars_impl; [|exact Hds].
    intros c Hc. by apply digit_not_char. }
  assert (Htruthy : forall mid, truthy (PStr (ds1 +:+ mid +:+ ds2)) = true).
  { intros mid. destruct ds1; done. }
  unfold hemnet_floor, booli_floor. rewrite !Htruthy, !strip_between by done.
  split; [|split; [|split]].
  - by apply floor_fields_av.
  - rewrite replace_char_app, (replace_char_absent _ _ ds1) by (by apply Hno).
    change (replace_char "/" " av " (" av " +:+ ds2))
      with (" av " +:+ replace_char "/" " av " ds2).
    rewrite replace_char_absent by (by apply Hno).
    by apply floor_fields_av.
  - rewrite replace_char_app, (replace_char_absent _ _ ds1) by (by apply Hno).
    change (replace_char "/" " av " ("/" +:+ ds2))
      with (" av " +:+ replace_char "/" " av " ds2).
    rewrite replace_char_absent by (by apply Hno).
    by apply floor_fields_av.
  - rewrite split_ws_word.
    + unfold floor_fields. simpl.
      rewrite parse_integer_digits by done. done.
    + destruct ds1; done.
    + change (ds1 +:+ "/" +:+ ds2) with (ds1 +:+ String "/" ds2).
      clear -H1 H2. induction ds1 as [|c ds1 IH]; simpl in *.
      * by rewrite digits_no_space.
      * apply andb_true_iff in H1 as [Hc H1]. by rewrite (digit_not_space c Hc), IH.
Qed.

Lemma floor_text_witness :
  hemnet_floor "3 av 5" = (Some 3, Some 5) /\ booli_floor "3/5" = (Some 3, Some 5) /\
  hemnet_floor "3/5" = (Some 3, None).
Proof.
  pose proof (floor_text "3" "5" eq_refl ltac:(discriminate) eq_refl ltac:(discriminate))
    as (Hh & _ & Hb & Hs).
  exact (conj Hh (conj Hb Hs)).
Defined.

End SpiderTexts.
